(** * Astro SQL operators: file export and table append

    A shallow embedding of the two operators

      - [SaveFile]          (astro/sql/operators/agnostic_save_file.py)
      - [SqlAppendOperator] (astro/sql/operators/agnostic_sql_append.py)

    Both operators are thin adapters around external libraries (Airflow
    hooks, pandas, smart_open, SQLAlchemy).  The libraries are not part of
    the operators: every call that leaves the operator is answered by a
    [World], a record of functions that see the history of calls made so
    far.  Each call is also appended to that history, so that the order of
    effects (which hook is built, what is opened in which mode, what is
    handed to a serialiser or to the database) can be stated and proved. *)

From stdpp Require Import gmap strings list fin_maps pretty.

Local Open Scope string_scope.
Local Open Scope list_scope.
Local Open Scope stdpp_scope.

(** ** Python exceptions and the effect monad *)

Module Py.

(** The exception classes the two operators can meet.  [IOError] is
    Python 3's alias of [OSError]; [FileExistsError] is one of its
    subclasses.  [OtherError] stands for any class outside this list
    (driver errors, credential errors, ...). *)
Inductive exn : Type :=
| KeyError (key : string)
| AttributeError (obj attr : string)
| FileExistsError
| IOError (msg : string)
| OtherError (cls : string).

(** What a clause [except IOError] catches. *)
Definition is_IOError (e : exn) : bool :=
  match e with
  | IOError _ | FileExistsError => true
  | _ => false
  end.

(** What the spec calls a lookup error: [KeyError] derives from
    [LookupError]. *)
Definition is_KeyError (e : exn) : bool :=
  match e with KeyError _ => true | _ => false end.

Definition is_AttributeError (e : exn) : bool :=
  match e with AttributeError _ _ => true | _ => false end.

Inductive result (A : Type) : Type :=
| Ok (a : A)
| Raise (e : exn).
Arguments Ok {A} a.
Arguments Raise {A} e.

Definition is_Ok {A} (r : result A) : bool :=
  match r with Ok _ => true | Raise _ => false end.

(** A computation threads a state [S] and returns a value or raises.
    The state reached when the exception was raised is kept. *)
Definition M (S A : Type) : Type := S -> result A * S.

Definition ret {S A} (a : A) : M S A := fun s => (Ok a, s).

Definition raise {S A} (e : exn) : M S A := fun s => (Raise e, s).

Definition bind {S A B} (c : M S A) (k : A -> M S B) : M S B :=
  fun s =>
    match c s with
    | (Ok a, s') => k a s'
    | (Raise e, s') => (Raise e, s')
    end.

(** [try: c except <classes>: h] *)
Definition try_except {S A} (c : M S A) (catches : exn -> bool) (h : M S A)
  : M S A :=
  fun s =>
    match c s with
    | (Ok a, s') => (Ok a, s')
    | (Raise e, s') => if catches e then h s' else (Raise e, s')
    end.

(** [try: c finally: f], where an exception of [f] replaces the one of
    [c]: what leaving a [with] block does with the manager's [__exit__]
    when that returns a false value. *)
Definition finally {S A} (c : M S A) (f : M S unit) : M S A :=
  fun s =>
    match c s with
    | (Ok a, s') => bind f (fun _ => ret a) s'
    | (Raise e, s') => bind f (fun _ => raise e) s'
    end.

(** [d[k]] on a dictionary with string keys. *)
Definition dict_getitem {S V} (d : gmap string V) (k : string) : M S V :=
  match d !! k with
  | Some v => ret v
  | None => raise (KeyError k)
  end.

End Py.

Export Py.

Notation "'let*' x ':=' c 'in' k" := (bind c (fun x => k))
  (at level 10, x name, c at level 100, k at level 200).

(** The URI scheme of a schemeless (local) path: the empty string. *)
Definition no_scheme : string := EmptyString.

(** [astro.sql.table.Table], by the attributes the operators read. *)
Record Table : Type := {
  table_name : string;
  conn_id : string;
  database : string;
  schema : string;
  warehouse : string
}.

(** ** The file export operator *)

Module SaveFile.

(** The three hook objects, by their constructor arguments. *)
Inductive hook : Type :=
| PostgresHook (postgres_conn_id schema : string)
| TempSnowflakeHook (snowflake_conn_id database schema warehouse : string)
| BigQueryHook (use_legacy_sql : bool) (gcp_conn_id : string).

Inductive engine : Type := Engine (url : string).

(** The values of the transport dictionary: two credential providers
    and the anonymous [lambda: None]. *)
Inductive provider : Type := s3fs_creds | gcs_client | lambda_None.

(** What a provider returns; [None] is Python's [None]. *)
Inductive transport : Type := Transport (client : string).

Inductive mode : Type := mode_r | mode_wb.

Record stream : Type := { s_path : string; s_mode : mode }.

(** The bound dataframe methods stored in the serialiser dictionary. *)
Inductive routine : Type := to_parquet | to_csv | to_json.

(** Keyword-argument values. *)
Inductive kwval : Type := KBool (b : bool) | KStr (s : string).

(** A dataframe: column names and rows, each cell given by the text of
    its scalar. *)
Record DataFrame : Type := {
  df_columns : list string;
  df_rows : list (list string)
}.

(** Calls that leave the operator, in the order they are made. *)
Inductive event : Type :=
| GetConnection (conn : string)
| NewHook (h : hook)
| GetEngine (h : hook)
| ReadSql (sql : string) (con : engine)
| CallProvider (p : provider)
| Open (path : string) (m : mode) (tp : option transport)
| Close (s : stream)
| Serialise (r : routine) (s : stream) (kw : gmap string kwval)
            (df : DataFrame).

Definition trace : Type := list event.

(** The libraries and services behind the operator.  Every fallible
    call is answered from the history of calls before it. *)
Record World : Type := {
  (* BaseHook.get_connection(conn_id).conn_type *)
  get_connection : trace -> string -> result string;
  (* astro.utils.schema_util.get_table_name, whose module is outside the
     operator: taken as a function of the table *)
  get_table_name : Table -> string;
  (* hook.get_sqlalchemy_engine() *)
  get_sqlalchemy_engine : trace -> hook -> result engine;
  (* pd.read_sql(sql, con=engine) *)
  read_sql : trace -> string -> engine -> result DataFrame;
  (* urllib.parse.urlparse(path).scheme *)
  urlparse_scheme : string -> string;
  (* s3fs_creds() and gcs_client() *)
  call_provider : trace -> provider -> result (option transport);
  (* smart_open.open(path, mode=..., transport_params=...) *)
  smart_open : trace -> string -> mode -> option transport -> result unit;
  (* leaving the [with] block: the stream's __exit__ *)
  stream_exit : trace -> stream -> result unit;
  (* df.to_parquet / df.to_csv / df.to_json writing into a stream *)
  serialise : trace -> routine -> stream -> gmap string kwval -> DataFrame
              -> result unit;
  (* the text the routine renders for a dataframe under given options *)
  pd_render : routine -> gmap string kwval -> DataFrame -> string
}.

(** The operator's attributes, as set by [__init__]. *)
Record SaveFile : Type := {
  table : string;
  output_file_path : string;
  input_table : option Table;
  output_conn_id : option string;
  output_file_format : string;
  overwrite : option bool
}.

(** An external call: the world answers from the history, and the call
    is recorded whatever the answer. *)
Definition call {A} (ev : event) (answer : trace -> result A)
  : M trace A :=
  fun t => (answer t, t ++ [ev]).

(** Hook constructors only store their arguments. *)
Definition new_hook (h : hook) : M trace hook :=
  fun t => (Ok h, t ++ [NewHook h]).

(** [self.overwrite == True] *)
Definition eq_True (o : option bool) : bool :=
  match o with Some true => true | _ => false end.

(** The dictionary literal both [file_exists] and [agnostic_write_file]
    index by the URI scheme. *)
Definition transport_dispatch : gmap string provider :=
  <["s3" := s3fs_creds]> (<["gs" := gcs_client]>
    (<[no_scheme := lambda_None]> ∅)).

(** Calling the value found in the dictionary. *)
Definition invoke (w : World) (p : provider) : M trace (option transport) :=
  match p with
  | lambda_None => ret None
  | _ => call (CallProvider p) (fun t => call_provider w t p)
  end.

(** [{...}[urlparse(output_file_path).scheme]()] *)
Definition transport_params (w : World) (path : string)
  : M trace (option transport) :=
  let* p := dict_getitem transport_dispatch (urlparse_scheme w path) in
  invoke w p.

(** [with open(path, mode=m, transport_params=tp) as stream: body] *)
Definition with_open {A} (w : World) (path : string) (m : mode)
    (tp : option transport) (body : stream -> M trace A) : M trace A :=
  let* _ := call (Open path m tp) (fun t => smart_open w t path m tp) in
  let s := {| s_path := path; s_mode := m |} in
  finally (body s) (call (Close s) (fun t => stream_exit w t s)).

Definition file_exists (w : World) (self : SaveFile)
    (output_file_path : string) (output_conn_id : option string)
  : M trace bool :=
  let* tp := transport_params w output_file_path in
  try_except
    (with_open w output_file_path mode_r tp (fun _ => ret true))
    is_IOError
    (ret false).

Definition serialiser : gmap string routine :=
  <["parquet" := to_parquet]> (<["csv" := to_csv]>
    (<["json" := to_json]> (<["ndjson" := to_json]> ∅))).

Definition serialiser_params : gmap string (gmap string kwval) :=
  <["csv" := <["index" := KBool false]> ∅]>
    (<["json" := <["orient" := KStr "records"]> ∅]>
      (<["ndjson" := <["orient" := KStr "records"]>
                       (<["lines" := KBool true]> ∅)]> ∅)).

Definition agnostic_write_file (w : World) (self : SaveFile)
    (df : DataFrame) (output_file_path : string)
    (output_conn_id : option string) : M trace unit :=
  let* tp := transport_params w output_file_path in
  with_open w output_file_path mode_wb tp (fun stream =>
    let* f := dict_getitem serialiser (output_file_format self) in
    let kw := default ∅ (serialiser_params !! output_file_format self) in
    call (Serialise f stream kw df)
         (fun t => serialise w t f stream kw df)).

(** The hook dictionary of [execute]; its three values are built before
    the dictionary is indexed. *)
Definition input_hooks (pg sf bq : hook) : gmap string hook :=
  <["postgres" := pg]> (<["snowflake" := sf]> (<["bigquery" := bq]> ∅)).

(** The first half of [execute]: resolve the hook and load the table. *)
Definition load_table (w : World) (self : SaveFile) : M trace DataFrame :=
  let* input_table :=
    match input_table self with
    | Some t => ret t
    | None => raise (AttributeError "NoneType" "conn_id")
    end in
  let* conn_type :=
    call (GetConnection (conn_id input_table))
         (fun t => get_connection w t (conn_id input_table)) in
  let* pg := new_hook (PostgresHook (conn_id input_table)
                                    (database input_table)) in
  let* sf := new_hook (TempSnowflakeHook (conn_id input_table)
                         (database input_table) (schema input_table)
                         (warehouse input_table)) in
  let* bq := new_hook (BigQueryHook false (conn_id input_table)) in
  let input_hook := input_hooks pg sf bq !! conn_type in
  let sql := "SELECT * FROM " +:+ get_table_name w input_table in
  let* con :=
    match input_hook with
    | Some h => call (GetEngine h) (fun t => get_sqlalchemy_engine w t h)
    | None => raise (AttributeError "NoneType" "get_sqlalchemy_engine")
    end in
  call (ReadSql sql con) (fun t => read_sql w t sql con).

(** The second half of [execute]: the overwrite policy. *)
Definition write_policy (w : World) (self : SaveFile) (df : DataFrame)
  : M trace unit :=
  if eq_True (overwrite self) then
    agnostic_write_file w self df (output_file_path self)
                        (output_conn_id self)
  else
    let* present := file_exists w self (output_file_path self)
                                (output_conn_id self) in
    if negb present then
      agnostic_write_file w self df (output_file_path self)
                          (output_conn_id self)
    else raise FileExistsError.

Definition execute (w : World) (self : SaveFile) : M trace unit :=
  let* df := load_table w self in
  write_policy w self df.

(** *** Observations on a trace *)

Definition is_open_wb (ev : event) : bool :=
  match ev with Open _ mode_wb _ => true | _ => false end.

Definition is_open (ev : event) : bool :=
  match ev with Open _ _ _ => true | _ => false end.

Definition is_open_r (ev : event) : bool :=
  match ev with Open _ mode_r _ => true | _ => false end.

Definition is_serialise (ev : event) : bool :=
  match ev with Serialise _ _ _ _ => true | _ => false end.

Definition is_provider_call (ev : event) : bool :=
  match ev with CallProvider _ => true | _ => false end.

Definition is_new_hook (ev : event) : bool :=
  match ev with NewHook _ => true | _ => false end.

(** An event that touches the destination for writing. *)
Definition is_write (ev : event) : bool :=
  is_open_wb ev || is_serialise ev.

Definition none_of (p : event -> bool) (t : trace) : bool :=
  forallb (fun ev => negb (p ev)) t.

Definition some_of (p : event -> bool) (t : trace) : bool :=
  existsb p t.

(** [c] only ever appends events that satisfy [P]. *)
Definition grows_by {A} (P : event -> bool) (c : M trace A) : Prop :=
  forall t, exists evs, (c t).2 = t ++ evs /\ forallb P evs = true.

(** The four calls every invocation makes once its connection is found:
    the connection lookup and the three hook constructors. *)
Definition eager_calls (tbl : Table) : trace :=
  [GetConnection (conn_id tbl);
   NewHook (PostgresHook (conn_id tbl) (database tbl));
   NewHook (TempSnowflakeHook (conn_id tbl) (database tbl) (schema tbl)
                              (warehouse tbl));
   NewHook (BigQueryHook false (conn_id tbl))].

Definition not_write (ev : event) : bool := negb (is_write ev).

Definition not_serialise (ev : event) : bool := negb (is_serialise ev).

Definition any_event (ev : event) : bool := true.

(** *** Reading what a serialiser wrote *)

Definition newline : Ascii.ascii := Ascii.ascii_of_nat 10.

Definition quote : string := String (Ascii.ascii_of_nat 34) EmptyString.

(** Python's [str.splitlines] for the line feed: the pieces between line
    feeds, without a last empty piece. *)
Fixpoint splitlines_from (cur : string) (s : string) : list string :=
  match s with
  | EmptyString => if String.eqb cur EmptyString then [] else [cur]
  | String c s' =>
      if Ascii.eqb c newline then cur :: splitlines_from EmptyString s'
      else splitlines_from (cur +:+ String c EmptyString) s'
  end.

Definition splitlines (s : string) : list string :=
  splitlines_from EmptyString s.

(** One row as a JSON object keyed by the column names, and by nothing
    else: [{c1:v1,c2:v2,...}] with the names quoted. *)
Definition json_record (cols : list string) (row : list string) : string :=
  "{" +:+ String.concat ","
            (zip_with (fun c v => quote +:+ c +:+ quote +:+ ":" +:+ v)
                      cols row)
      +:+ "}".

(** The keyword arguments the three formats with options are given. *)
Definition csv_options : gmap string kwval := <["index" := KBool false]> ∅.

Definition json_options : gmap string kwval :=
  <["orient" := KStr "records"]> ∅.

Definition ndjson_options : gmap string kwval :=
  <["orient" := KStr "records"]> (<["lines" := KBool true]> ∅).

End SaveFile.

(** ** The table append operator *)

Module SqlAppend.

(** What [getattr(sqlalchemy, v)] finds in the module's namespace. *)
Inductive sqla_attr : Type := SqlaAttr (qualname : string).

(** Column expressions: [column(name)] and [cast(expr, type)]. *)
Inductive sqlexpr : Type :=
| column (name : string)
| cast (e : sqlexpr) (ty : sqla_attr).

(** The elements of the Python lists the method builds: plain strings
    and column expressions. *)
Inductive pyval : Type :=
| PStr (s : string)
| PExpr (e : sqlexpr).

(** A reflected table: its name and [table.c.keys()], the column names
    in schema order. *)
Record sqla_table : Type := { t_name : string; t_keys : list string }.

(** [select(columns).select_from(table)] *)
Record select_stmt : Type := {
  sel_columns : list pyval;
  sel_from : sqla_table
}.

(** [insert(table).from_select(names, select)] *)
Record insert_stmt : Type := {
  ins_table : sqla_table;
  ins_names : list pyval;
  ins_select : select_stmt
}.

Inductive engine : Type := Engine (url : string).

Inductive event : Type :=
| GetEngine
| Reflect (name : string) (bind : engine)
| Execute (sql : insert_stmt).

(** Python lists are mutable objects: a variable holds a reference into
    a store of lists, and two variables can hold the same reference. *)
Definition ref : Type := nat.

Record state : Type := {
  st_trace : list event;
  st_heap : list (list pyval)
}.

Record World : Type := {
  (* self.get_sql_alchemy_engine() *)
  get_sql_alchemy_engine : list event -> result engine;
  (* astro.utils.schema_util.get_table_name *)
  get_table_name : Table -> string;
  (* SqlaTable(name, metadata, autoload_with=engine).c.keys() *)
  autoload : list event -> string -> engine -> result (list string);
  (* the namespace of the sqlalchemy module *)
  sqlalchemy : gmap string sqla_attr;
  (* sqlalchemy.cast instantiates the attribute it is given as a type:
     the exception that raises, if any (TypeError for the function text) *)
  cast_error : sqla_attr -> option exn;
  (* SqlDecoratoratedOperator.execute, running self.sql *)
  run_sql : list event -> insert_stmt -> result unit
}.

Record SqlAppendOperator : Type := {
  append_table : Table;
  main_table : Table;
  columns : list string;
  (* the dictionary's items, in iteration order *)
  casted_columns : list (string * string);
  op_conn_id : string
}.

Definition call {A} (ev : event) (answer : list event -> result A)
  : M state A :=
  fun s => (answer (st_trace s),
            {| st_trace := st_trace s ++ [ev]; st_heap := st_heap s |}).

(** A list display or comprehension: a fresh list object. *)
Definition new_list (l : list pyval) : M state ref :=
  fun s => (Ok (length (st_heap s)),
            {| st_trace := st_trace s; st_heap := st_heap s ++ [l] |}).

(** The current contents of a list object. *)
Definition deref (h : list (list pyval)) (r : ref) : list pyval :=
  default [] (h !! r).

Definition read (r : ref) : M state (list pyval) :=
  fun s => (Ok (deref (st_heap s) r), s).

(** [len(r)] *)
Definition len (r : ref) : M state nat :=
  fun s => (Ok (length (deref (st_heap s) r)), s).

(** [r.extend(items)]: the object behind [r] grows in place. *)
Definition extend (r items : ref) : M state unit :=
  fun s =>
    let h := st_heap s in
    (Ok tt, {| st_trace := st_trace s;
               st_heap := <[r := deref h r ++ deref h items]> h |}).

(** [getattr(sqlalchemy, v)] *)
Definition getattr_sqlalchemy (w : World) (v : string) : M state sqla_attr :=
  match sqlalchemy w !! v with
  | Some a => ret a
  | None => raise (AttributeError "sqlalchemy" v)
  end.

(** [cast(e, ty)]: the call builds the expression unless instantiating
    [ty] raises. *)
Definition py_cast (w : World) (e : sqlexpr) (ty : sqla_attr)
  : M state sqlexpr :=
  match cast_error w ty with
  | Some x => raise x
  | None => ret (cast e ty)
  end.

(** [[cast(column(k), getattr(sqlalchemy, v)) for k, v in items]]: each
    item looks its type name up and calls [cast], in iteration order. *)
Fixpoint casted_fields_of (w : World) (items : list (string * string))
  : M state (list pyval) :=
  match items with
  | [] => ret []
  | (k, v) :: rest =>
      let* ty := getattr_sqlalchemy w v in
      let* field := py_cast w (column k) ty in
      let* tl := casted_fields_of w rest in
      ret (PExpr field :: tl)
  end.

(** The exception an item of the comprehension raises, if any: the
    one of the lookup, or else the one of [cast]. *)
Definition entry_error (w : World) (v : string) : option exn :=
  match sqlalchemy w !! v with
  | None => Some (AttributeError "sqlalchemy" v)
  | Some a => cast_error w a
  end.

(** An entry of the cast map whose type name is an attribute of the
    toolkit that [cast] takes as a type. *)
Definition accepted (w : World) (kv : string * string) : Prop :=
  exists a, sqlalchemy w !! kv.2 = Some a /\ cast_error w a = None.

(** [SqlaTable(name, metadata, autoload_with=engine)] *)
Definition SqlaTable (w : World) (name : string) (autoload_with : engine)
  : M state sqla_table :=
  let* keys := call (Reflect name autoload_with)
                    (fun t => autoload w t name autoload_with) in
  ret {| t_name := name; t_keys := keys |}.

(** Lines 78-86 of [append]: the engine and the two reflected tables. *)
Definition reflect_tables (w : World) (main_table append_table : Table)
  : M state (sqla_table * sqla_table) :=
  let* engine := call GetEngine (get_sql_alchemy_engine w) in
  let* main_table_sqla := SqlaTable w (get_table_name w main_table) engine in
  let* append_table_sqla :=
    SqlaTable w (get_table_name w append_table) engine in
  ret (main_table_sqla, append_table_sqla).

(** Lines 88-102 of [append]: the column lists and the statement. *)
Definition build_statement (w : World) (columns : list string)
    (casted_columns : list (string * string))
    (main_table_sqla append_table_sqla : sqla_table) : M state insert_stmt :=
  let* column_names := new_list (map (fun c => PExpr (column c)) columns) in
  let* fields := casted_fields_of w casted_columns in
  let* casted_fields := new_list fields in
  let* main_columns := new_list (map (fun kv => PStr kv.1) casted_columns) in
  let* copy := new_list (map PStr columns) in
  let* _ := extend main_columns copy in
  let* n_names := len column_names in
  let* n_fields := len casted_fields in
  let* rebound :=
    if (n_names + n_fields =? 0)%nat then
      let* all_names :=
        new_list (map (fun c => PExpr (column c)) (t_keys append_table_sqla)) in
      ret (all_names, all_names)
    else ret (column_names, main_columns) in
  let column_names := rebound.1 in
  let main_columns := rebound.2 in
  let* _ := extend column_names casted_fields in
  let* selected := read column_names in
  let sel := {| sel_columns := selected; sel_from := append_table_sqla |} in
  let* names := read main_columns in
  ret {| ins_table := main_table_sqla; ins_names := names;
         ins_select := sel |}.

Definition append (w : World) (main_table : Table) (columns : list string)
    (casted_columns : list (string * string)) (append_table : Table)
    (conn : string) : M state insert_stmt :=
  let* tables := reflect_tables w main_table append_table in
  build_statement w columns casted_columns tables.1 tables.2.

Definition execute (w : World) (self : SqlAppendOperator) : M state unit :=
  let* sql := append w (main_table self) (columns self)
                     (casted_columns self) (append_table self)
                     (op_conn_id self) in
  call (Execute sql) (fun t => run_sql w t sql).

(** *** Reading a statement *)

(** The destination column an entry of the [from_select] name list
    stands for: a string names it, a column object gives its key. *)
Definition dest_column (v : pyval) : option string :=
  match v with
  | PStr s => Some s
  | PExpr (column n) => Some n
  | PExpr (cast _ _) => None
  end.

(** The source column a selected expression reads. *)
Fixpoint expr_column (e : sqlexpr) : string :=
  match e with
  | column n => n
  | cast e' _ => expr_column e'
  end.

Definition source_column (v : pyval) : option string :=
  match v with
  | PStr s => Some s
  | PExpr e => Some (expr_column e)
  end.

Definition is_cast (v : pyval) : bool :=
  match v with PExpr (cast _ _) => true | _ => false end.

Definition is_execute (ev : event) : bool :=
  match ev with Execute _ => true | _ => false end.

(** The state a call starts from: nothing called yet, no list built. *)
Definition initial : state := {| st_trace := []; st_heap := [] |}.

End SqlAppend.

(** ** Concrete worlds and invocations *)

Module SaveFileExamples.
Import SaveFile.

Definition orders : Table :=
  {| table_name := "orders"; conn_id := "postgres_conn";
     database := "pagila"; schema := "public"; warehouse := EmptyString |}.

Definition orders_df : DataFrame :=
  {| df_columns := ["id"; "amount"];
     df_rows := [["1"; "9.5"]; ["2"; "12.0"]; ["3"; "7.25"]] |}.

(** The scheme of the few URI shapes the examples use. *)
Definition scheme_of (path : string) : string :=
  if String.prefix "s3://" path then "s3"
  else if String.prefix "gs://" path then "gs"
  else if String.prefix "http://" path then "http"
  else no_scheme.

(** Records, each followed by a line feed. *)
Definition records_lines (df : DataFrame) : string :=
  String.concat EmptyString
    (map (fun row => json_record (df_columns df) row
                       +:+ String newline EmptyString)
         (df_rows df)).

(** A world in which everything succeeds, except that the connection has
    type [conn_type] and opening the destination for read is answered by
    [probe]. *)
Definition world (conn_type : string) (probe : result unit) : World :=
  {| get_connection := fun _ _ => Ok conn_type;
     get_table_name := table_name;
     get_sqlalchemy_engine := fun _ _ => Ok (Engine "postgresql://pagila");
     read_sql := fun _ _ _ => Ok orders_df;
     urlparse_scheme := scheme_of;
     call_provider := fun _ _ => Ok (Some (Transport "client"));
     smart_open := fun _ _ m _ =>
                     match m with mode_r => probe | mode_wb => Ok tt end;
     stream_exit := fun _ _ => Ok tt;
     serialise := fun _ _ _ _ _ => Ok tt;
     pd_render := fun _ _ df => records_lines df |}.

Definition export (path format : string) (overwrite : option bool)
  : SaveFile :=
  {| table := EmptyString; output_file_path := path;
     input_table := Some orders; output_conn_id := None;
     output_file_format := format; overwrite := overwrite |}.

(** The calls of a successful table load in [world "postgres" _]. *)
Definition loaded : trace :=
  eager_calls orders
  ++ [GetEngine (PostgresHook "postgres_conn" "pagila");
      ReadSql "SELECT * FROM orders" (Engine "postgresql://pagila")].

End SaveFileExamples.

Module SqlAppendExamples.
Import SqlAppend.

Definition Float : sqla_attr := SqlaAttr "sqlalchemy.sql.sqltypes.Float".

Definition named (name : string) : Table :=
  {| table_name := name; conn_id := "postgres_conn"; database := "pagila";
     schema := "public"; warehouse := EmptyString |}.

(** A database with the tables [orders] and [sales], both with the
    columns (id, amount), behind a toolkit that knows the type [Float]. *)
Definition world : World :=
  {| get_sql_alchemy_engine := fun _ => Ok (Engine "postgresql://pagila");
     get_table_name := table_name;
     autoload := fun _ name _ =>
                   if String.eqb name "orders" then Ok ["id"; "amount"]
                   else if String.eqb name "sales" then Ok ["id"; "amount"]
                   else Raise (OtherError "NoSuchTableError");
     sqlalchemy := <["Float" := Float]> ∅;
     cast_error := fun _ => None;
     run_sql := fun _ _ => Ok tt |}.

(** The function [sqlalchemy.text]: an attribute of the toolkit that is
    not a type. *)
Definition text : sqla_attr := SqlaAttr "sqlalchemy.sql.expression.text".

(** The same database behind a toolkit that has both [Float] and
    [text]; [cast] given [text] calls it without arguments, which raises
    TypeError. *)
Definition world_with_text : World :=
  {| get_sql_alchemy_engine := fun _ => Ok (Engine "postgresql://pagila");
     get_table_name := table_name;
     autoload := fun _ name _ =>
                   if String.eqb name "orders" then Ok ["id"; "amount"]
                   else if String.eqb name "sales" then Ok ["id"; "amount"]
                   else Raise (OtherError "NoSuchTableError");
     sqlalchemy := <["Float" := Float]> (<["text" := text]> ∅);
     cast_error := fun a =>
                     match a with
                     | SqlaAttr name =>
                         if String.eqb name "sqlalchemy.sql.expression.text"
                         then Some (OtherError "TypeError")
                         else None
                     end;
     run_sql := fun _ _ => Ok tt |}.

Definition operator (columns : list string)
    (casted_columns : list (string * string)) : SqlAppendOperator :=
  {| append_table := named "orders"; main_table := named "sales";
     columns := columns; casted_columns := casted_columns;
     op_conn_id := "postgres_conn" |}.

End SqlAppendExamples.

(** ** Further observations on the export operator *)

Module SaveFileMore.
Import SaveFile.

(** The calls that reach the destination or its credentials. *)
Definition is_destination_event (ev : event) : bool :=
  match ev with
  | CallProvider _ | Open _ _ _ | Close _ | Serialise _ _ _ _ => true
  | _ => false
  end.

Definition provider_eqb (p q : provider) : bool :=
  match p, q with
  | s3fs_creds, s3fs_creds | gcs_client, gcs_client
  | lambda_None, lambda_None => true
  | _, _ => false
  end.

(** Every provider call in sight is a call of [p]. *)
Definition only_provider (p : provider) (ev : event) : bool :=
  match ev with
  | CallProvider q => provider_eqb q p
  | _ => true
  end.

(** No provider is called, and whatever is opened is opened without
    transport parameters. *)
Definition anonymous (ev : event) : bool :=
  match ev with
  | CallProvider _ => false
  | Open _ _ (Some _) => false
  | _ => true
  end.

Definition count_events (p : event -> bool) (t : trace) : nat :=
  length (List.filter p t).

(** The hook [execute] asks for an engine, by connection type. *)
Definition hook_of (tbl : Table) : list (string * hook) :=
  [("postgres", PostgresHook (conn_id tbl) (database tbl));
   ("snowflake", TempSnowflakeHook (conn_id tbl) (database tbl)
                                   (schema tbl) (warehouse tbl));
   ("bigquery", BigQueryHook false (conn_id tbl))].

(** *** [SaveFile.create_table_name] *)

(** [DagRun] and [TaskInstance], by the attributes the method reads; the
    run's [id] is an integer primary key. *)
Record DagRun : Type := { dag_id : string; dr_id : Z }.

Record TaskInstance : Type := { task_id : string; ti_run : string }.

(** [context] is a dictionary; [ti.get_dagrun()] queries the metadata
    database and is given as a function that may raise. *)
Definition create_table_name (get_dagrun : TaskInstance -> result DagRun)
    (context : gmap string TaskInstance) : result string :=
  match context !! "ti" with
  | None => Raise (KeyError "ti")
  | Some ti =>
      match get_dagrun ti with
      | Raise e => Raise e
      | Ok dag_run =>
          Ok (dag_id dag_run +:+ "_" +:+ task_id ti +:+ "_"
              +:+ pretty (dr_id dag_run))
      end
  end.

Definition underscore : Ascii.ascii := Ascii.ascii_of_nat 95.

Fixpoint has_char (c : Ascii.ascii) (s : string) : bool :=
  match s with
  | EmptyString => false
  | String c' s' => Ascii.eqb c' c || has_char c s'
  end.

(** A world in which the destination opens for read, but the release of
    a stream opened for read raises an IOError. *)
Definition stale_release : World :=
  {| get_connection := fun _ _ => Ok "postgres";
     get_table_name := table_name;
     get_sqlalchemy_engine := fun _ _ => Ok (Engine "postgresql://pagila");
     read_sql := fun _ _ _ => Ok SaveFileExamples.orders_df;
     urlparse_scheme := SaveFileExamples.scheme_of;
     call_provider := fun _ _ => Ok None;
     smart_open := fun _ _ _ _ => Ok tt;
     stream_exit := fun _ s =>
                      match s_mode s with
                      | mode_r => Raise (IOError "Stale file handle")
                      | mode_wb => Ok tt
                      end;
     serialise := fun _ _ _ _ _ => Ok tt;
     pd_render := fun _ _ df => SaveFileExamples.records_lines df |}.

End SaveFileMore.

(** ** What the export hands to the destination, for line-delimited JSON *)

Module SaveFileLayout.
Import SaveFile SaveFileMore.

Definition line_feed : string := String newline EmptyString.

(** The two keyword arguments of [to_json] the operator sets. *)
Definition orient_is_records (kw : gmap string kwval) : bool :=
  match kw !! "orient" with
  | Some (KStr s) => String.eqb s "records"
  | _ => false
  end.

Definition lines_is_true (kw : gmap string kwval) : bool :=
  match kw !! "lines" with
  | Some (KBool b) => b
  | _ => false
  end.

(** Modelled from the spec: [DataFrame.to_json] belongs to pandas and is
    not in the repository.  For orient=records with lines=True the spec
    gives its text as one JSON object per row, keyed by the column names
    and by nothing else, the objects separated by line feeds, with no
    enclosing array brackets.  Whether a line feed also ends the text is
    left open there, so it is a parameter here. *)
Definition to_json_lines (final_line_feed : bool) (df : DataFrame) : string :=
  String.concat line_feed (map (json_record (df_columns df)) (df_rows df))
  +:+ (if final_line_feed then line_feed else EmptyString).

(** The text a serialiser call hands to its stream, for the routine and
    options modelled above. *)
Definition rendered (final_line_feed : bool) (ev : event) : option string :=
  match ev with
  | Serialise to_json _ kw df =>
      if orient_is_records kw && lines_is_true kw
      then Some (to_json_lines final_line_feed df)
      else None
  | _ => None
  end.

(** The text the last serialiser call of a history handed to its
    stream. *)
Definition destination_text (final_line_feed : bool) (t : trace)
  : option string :=
  match last (List.filter is_serialise t) with
  | Some ev => rendered final_line_feed ev
  | None => None
  end.

Definition no_line_feed (s : string) : bool := negb (has_char newline s).

(** Column names and cell texts that hold no raw line feed, as the text
    of a JSON scalar never does. *)
Definition single_line (df : DataFrame) : bool :=
  forallb no_line_feed (df_columns df)
  && forallb (forallb no_line_feed) (df_rows df).

End SaveFileLayout.

(** ** The constructor of the append operator *)

Module SqlAppendInit.
Import SqlAppend.

(** Values of keyword arguments. *)
Inductive pyobj : Type :=
| PyNone
| PyBool (b : bool)
| PyInt (z : Z)
| PyStr (s : string).

(** Truth value testing, as [or] does it. *)
Definition truthy (v : pyobj) : bool :=
  match v with
  | PyNone => false
  | PyBool b => b
  | PyInt z => negb (z =? 0)%Z
  | PyStr s => negb (String.eqb s EmptyString)
  end.

(** [x or y] *)
Definition py_or (x y : pyobj) : pyobj := if truthy x then x else y.

(** The keyword arguments the parent constructor is called with: the
    nine written in the call, and the caller's [**kwargs]. *)
Record super_args : Type := {
  raw_sql : bool;
  parameters : gmap string pyobj;
  sa_task_id : pyobj;
  sa_database : string;
  sa_schema : string;
  sa_warehouse : string;
  sa_conn_id : string;
  op_args : list pyobj;
  rest : gmap string pyobj
}.

(** The names of the keywords written in the call. *)
Definition written_keywords : list string :=
  ["raw_sql"; "parameters"; "task_id"; "database"; "schema"; "warehouse";
   "conn_id"; "op_args"; "python_callable"].

Inductive init_event : Type :=
| GetUniqueTaskId (prefix : string)
| SuperInit (args : super_args).

Record InitWorld : Type := {
  (* astro.utils.task_id_helper.get_unique_task_id *)
  get_unique_task_id : list init_event -> string -> result string;
  (* SqlDecoratoratedOperator.__init__ *)
  super_init : list init_event -> super_args -> result unit
}.

Definition init_call {A} (ev : init_event)
    (answer : list init_event -> result A) : M (list init_event) A :=
  fun t => (answer t, t ++ [ev]).

(** A call [f(k1=v1, ..., **kwargs)] raises TypeError, before [f] is
    entered, when [kwargs] has one of the written keywords. *)
Definition repeats_keyword (kwargs : gmap string pyobj) : bool :=
  existsb (fun k => bool_decide (is_Some (kwargs !! k))) written_keywords.

(** [SqlAppendOperator.__init__]; it returns the attributes of the new
    operator, the connection id being the one handed to the parent. *)
Definition init (w : InitWorld) (append_table main_table : Table)
    (columns : list string) (casted_columns : list (string * string))
    (kwargs : gmap string pyobj) : M (list init_event) SqlAppendOperator :=
  let* task_id :=
    init_call (GetUniqueTaskId "append_table")
              (fun t => get_unique_task_id w t "append_table") in
  let chosen := py_or (default PyNone (kwargs !! "task_id"))
                      (PyStr task_id) in
  let args :=
    {| raw_sql := true; parameters := ∅; sa_task_id := chosen;
       sa_database := database main_table; sa_schema := schema main_table;
       sa_warehouse := warehouse main_table;
       sa_conn_id := conn_id main_table; op_args := []; rest := kwargs |} in
  if repeats_keyword kwargs then raise (OtherError "TypeError")
  else
    let* _ := init_call (SuperInit args) (fun t => super_init w t args) in
    ret {| SqlAppend.append_table := append_table;
           SqlAppend.main_table := main_table;
           SqlAppend.columns := columns;
           SqlAppend.casted_columns := casted_columns;
           op_conn_id := conn_id main_table |}.

Definition is_super_init (ev : init_event) : bool :=
  match ev with SuperInit _ => true | _ => false end.

(** A world for the examples: the generated id is [append_table_1]. *)
Definition init_world : InitWorld :=
  {| get_unique_task_id := fun _ prefix => Ok (prefix +:+ "_1");
     super_init := fun _ _ => Ok tt |}.

End SqlAppendInit.

(** ** Laws of the effect monad *)

Module PyFacts.

Lemma bind_assoc {S A B C} (c : M S A) (f : A -> M S B) (g : B -> M S C) s :
  bind (bind c f) g s = bind c (fun a => bind (f a) g) s.
Proof. unfold bind. by destruct (c s) as [[a|e] s']. Qed.

Lemma bind_ret_l {S A B} (a : A) (k : A -> M S B) s : bind (ret a) k s = k a s.
Proof. done. Qed.

Lemma bind_raise_l {S A B} e (k : A -> M S B) s :
  bind (raise e) k s = (Raise e, s).
Proof. done. Qed.

End PyFacts.

(** ** Reasoning about traces *)

Module TraceFacts.
Import SaveFile.

Lemma grows_ret {A} P (a : A) : grows_by P (ret a).
Proof. intros t. exists []. by rewrite app_nil_r. Qed.

Lemma grows_raise {A} P e : grows_by P (@raise trace A e).
Proof. intros t. exists []. by rewrite app_nil_r. Qed.

Lemma grows_call {A} P ev (answer : trace -> result A) :
  P ev = true -> grows_by P (call ev answer).
Proof. intros HP t. exists [ev]. simpl. by rewrite HP. Qed.

Lemma grows_new_hook P h : P (NewHook h) = true -> grows_by P (new_hook h).
Proof. intros HP t. exists [NewHook h]. simpl. by rewrite HP. Qed.

Lemma grows_bind {A B} P (c : M trace A) (k : A -> M trace B) :
  grows_by P c -> (forall a, grows_by P (k a)) -> grows_by P (bind c k).
Proof.
  intros Hc Hk t. unfold bind.
  destruct (Hc t) as (evs & Ht & Hevs).
  destruct (c t) as [[a|e] t1]; simpl in Ht; subst t1.
  - destruct (Hk a (t ++ evs)) as (evs' & Ht' & Hevs').
    exists (evs ++ evs'). rewrite Ht', app_assoc. split; [done|].
    by rewrite forallb_app, Hevs, Hevs'.
  - by exists evs.
Qed.

Lemma grows_try_except {A} P (c h : M trace A) catches :
  grows_by P c -> grows_by P h -> grows_by P (try_except c catches h).
Proof.
  intros Hc Hh t. unfold try_except.
  destruct (Hc t) as (evs & Ht & Hevs).
  destruct (c t) as [[a|e] t1]; simpl in Ht; subst t1.
  - by exists evs.
  - destruct (catches e); [|by exists evs].
    destruct (Hh (t ++ evs)) as (evs' & Ht' & Hevs').
    exists (evs ++ evs'). rewrite Ht', app_assoc. split; [done|].
    by rewrite forallb_app, Hevs, Hevs'.
Qed.

Lemma grows_finally {A} P (c : M trace A) (f : M trace unit) :
  grows_by P c -> grows_by P f -> grows_by P (finally c f).
Proof.
  intros Hc Hf t. unfold finally.
  destruct (Hc t) as (evs & Ht & Hevs).
  destruct (c t) as [[a|e] t1]; simpl in Ht; subst t1.
  - destruct (grows_bind P f (fun _ => ret a) Hf
                (fun _ => grows_ret P a) (t ++ evs)) as (evs' & Ht' & Hevs').
    exists (evs ++ evs'). rewrite Ht', app_assoc. split; [done|].
    by rewrite forallb_app, Hevs, Hevs'.
  - destruct (grows_bind P f (fun _ => @raise trace A e) Hf
                (fun _ => grows_raise P e) (t ++ evs)) as (evs' & Ht' & Hevs').
    exists (evs ++ evs'). rewrite Ht', app_assoc. split; [done|].
    by rewrite forallb_app, Hevs, Hevs'.
Qed.

Lemma grows_dict_getitem {V} P (d : gmap string V) k :
  grows_by P (dict_getitem d k).
Proof.
  unfold dict_getitem. destruct (d !! k); [apply grows_ret|apply grows_raise].
Qed.

Lemma grows_weaken {A} (P Q : event -> bool) (c : M trace A) :
  (forall ev, P ev = true -> Q ev = true) -> grows_by P c -> grows_by Q c.
Proof.
  intros HPQ Hc t. destruct (Hc t) as (evs & Ht & Hevs).
  exists evs. split; [done|].
  rewrite forallb_forall in *. auto.
Qed.

Create HintDb grows.
#[export] Hint Resolve grows_ret grows_raise grows_call grows_new_hook
  grows_bind grows_try_except grows_finally grows_dict_getitem : grows.

End TraceFacts.

(** ** The file export operator: dispatch on scheme and connection type *)

Module SaveFileFacts.
Import SaveFile PyFacts TraceFacts.

Lemma transport_dispatch_unknown (k : string) :
  k ≠ "s3" -> k ≠ "gs" -> k ≠ no_scheme -> transport_dispatch !! k = None.
Proof. intros. unfold transport_dispatch. by simplify_map_eq. Qed.

Lemma transport_params_unknown w path t :
  urlparse_scheme w path ≠ "s3" ->
  urlparse_scheme w path ≠ "gs" ->
  urlparse_scheme w path ≠ no_scheme ->
  transport_params w path t = (Raise (KeyError (urlparse_scheme w path)), t).
Proof.
  intros H1 H2 H3. unfold transport_params, bind, dict_getitem.
  by rewrite transport_dispatch_unknown.
Qed.

(** C9. A destination whose URI scheme is none of s3, gs and the empty
    scheme makes both the existence probe and the write dispatch raise
    KeyError on that scheme; the history of calls is left as it was, so no
    open was attempted and no credential provider was called. *)
Theorem unknown_scheme_raises_KeyError w self df path conn t :
  urlparse_scheme w path ≠ "s3" ->
  urlparse_scheme w path ≠ "gs" ->
  urlparse_scheme w path ≠ no_scheme ->
  file_exists w self path conn t
    = (Raise (KeyError (urlparse_scheme w path)), t)
  /\ agnostic_write_file w self df path conn t
    = (Raise (KeyError (urlparse_scheme w path)), t).
Proof.
  intros H1 H2 H3. split.
  - unfold file_exists, bind.
    by rewrite transport_params_unknown.
  - unfold agnostic_write_file, bind.
    by rewrite transport_params_unknown.
Qed.

Lemma input_hooks_unknown pg sf bq (ct : string) :
  ct ≠ "postgres" -> ct ≠ "snowflake" -> ct ≠ "bigquery" ->
  input_hooks pg sf bq !! ct = None.
Proof. intros. unfold input_hooks. by simplify_map_eq. Qed.

Lemma bind_call {A B} ev (answer : trace -> result A) (k : A -> M trace B) t :
  bind (call ev answer) k t
  = match answer t with
    | Ok a => k a (t ++ [ev])
    | Raise e => (Raise e, t ++ [ev])
    end.
Proof. unfold bind, call. by destruct (answer t). Qed.

Lemma bind_new_hook {B} h (k : hook -> M trace B) t :
  bind (new_hook h) k t = k h (t ++ [NewHook h]).
Proof. done. Qed.

Lemma grows_invoke P w p :
  (forall q, P (CallProvider q) = true) -> grows_by P (invoke w p).
Proof. intros HP. destruct p; simpl; auto with grows. Qed.

Lemma grows_transport_params P w path :
  (forall q, P (CallProvider q) = true) ->
  grows_by P (transport_params w path).
Proof.
  intros HP. unfold transport_params.
  apply grows_bind; [apply grows_dict_getitem|].
  intros p. by apply grows_invoke.
Qed.

Lemma grows_with_open {A} P w path m tp (body : stream -> M trace A) :
  P (Open path m tp) = true ->
  P (Close {| s_path := path; s_mode := m |}) = true ->
  (forall s, grows_by P (body s)) ->
  grows_by P (with_open w path m tp body).
Proof.
  intros HO HC Hb. unfold with_open. auto with grows.
Qed.

Lemma grows_file_exists w self path conn :
  grows_by not_write (file_exists w self path conn).
Proof.
  unfold file_exists.
  apply grows_bind; [by apply grows_transport_params|].
  intros tp. apply grows_try_except; [|apply grows_ret].
  apply grows_with_open; [done|done|]. intros _. apply grows_ret.
Qed.

Lemma grows_load_table w self : grows_by not_write (load_table w self).
Proof.
  unfold load_table.
  apply grows_bind; [destruct (input_table self); auto with grows|].
  intros tbl. apply grows_bind; [by apply grows_call|].
  intros ct. do 3 (apply grows_bind; [by apply grows_new_hook|]; intros ?).
  apply grows_bind; [|intros con; by apply grows_call].
  destruct (input_hooks _ _ _ !! ct); [by apply grows_call|apply grows_raise].
Qed.

Lemma grows_agnostic_write_file P w self df path conn :
  (forall ev, P ev = true) ->
  grows_by P (agnostic_write_file w self df path conn).
Proof.
  intros HP. unfold agnostic_write_file.
  apply grows_bind; [by apply grows_transport_params|].
  intros tp. apply grows_with_open; [done|done|].
  intros s. apply grows_bind; [apply grows_dict_getitem|].
  intros f. by apply grows_call.
Qed.

Lemma grows_write_policy w self df :
  grows_by any_event (write_policy w self df).
Proof.
  unfold write_policy. destruct (eq_True (overwrite self)).
  - by apply grows_agnostic_write_file.
  - apply grows_bind.
    + eapply grows_weaken; [|apply grows_file_exists]. done.
    + intros [|]; simpl; [apply grows_raise|].
      by apply grows_agnostic_write_file.
Qed.

(** C10. Once the connection of the input table is found, every
    invocation builds the three hooks before it looks at the connection
    type; when that type is none of postgres, snowflake and bigquery the
    dictionary lookup gives None and requesting the engine from it raises
    AttributeError, with nothing called after the hook constructors. *)
Theorem unknown_conn_type_raises_AttributeError w self tbl ct t :
  input_table self = Some tbl ->
  get_connection w t (conn_id tbl) = Ok ct ->
  (exists rest, (execute w self t).2 = t ++ eager_calls tbl ++ rest)
  /\ (ct ≠ "postgres" -> ct ≠ "snowflake" -> ct ≠ "bigquery" ->
      execute w self t
      = (Raise (AttributeError "NoneType" "get_sqlalchemy_engine"),
         t ++ eager_calls tbl)).
Proof.
  intros Hin Hconn.
  pose (tail := fun k : DataFrame -> M trace unit =>
    bind (match input_hooks
                  (PostgresHook (conn_id tbl) (database tbl))
                  (TempSnowflakeHook (conn_id tbl) (database tbl)
                     (schema tbl) (warehouse tbl))
                  (BigQueryHook false (conn_id tbl)) !! ct with
          | Some h =>
              call (GetEngine h) (fun t' => get_sqlalchemy_engine w t' h)
          | None =>
              raise (AttributeError "NoneType" "get_sqlalchemy_engine")
          end)
         (fun con =>
            bind (call (ReadSql ("SELECT * FROM " +:+ get_table_name w tbl)
                                con)
                       (fun t' => read_sql w t'
                          ("SELECT * FROM " +:+ get_table_name w tbl) con))
                 k)).
  assert (Hstep : forall k,
            bind (load_table w self) k t = tail k (t ++ eager_calls tbl)).
  { intros k. unfold load_table. rewrite Hin.
    rewrite bind_assoc, bind_ret_l, bind_assoc, bind_call, Hconn.
    rewrite bind_assoc, bind_new_hook, bind_assoc, bind_new_hook.
    rewrite bind_assoc, bind_new_hook, bind_assoc.
    unfold eager_calls. by rewrite <- !app_assoc. }
  split.
  - assert (HG : grows_by any_event (tail (write_policy w self))).
    { apply grows_bind.
      - destruct (input_hooks _ _ _ !! ct);
          [by apply grows_call|apply grows_raise].
      - intros con. apply grows_bind; [by apply grows_call|].
        intros df. apply grows_write_policy. }
    destruct (HG (t ++ eager_calls tbl)) as (evs & Hevs & _).
    exists evs. unfold execute. rewrite Hstep, app_assoc. exact Hevs.
  - intros H1 H2 H3. unfold execute. rewrite Hstep. unfold tail.
    by rewrite input_hooks_unknown.
Qed.

Lemma eq_True_not (o : option bool) : o ≠ Some true -> eq_True o = false.
Proof. by destruct o as [[|]|]. Qed.

Lemma execute_after_load w self t df t1 :
  load_table w self t = (Ok df, t1) ->
  execute w self t = write_policy w self df t1.
Proof. intros Hl. unfold execute, bind. by rewrite Hl. Qed.

(** C4. After the table is loaded: with overwrite true the write step
    runs from there, with no existence check before it; otherwise the
    existence check runs, and when it answers true the operation raises
    FileExistsError with no write event in the whole history, and when it
    answers false the write step runs. *)
Theorem overwrite_policy w self t df t1 :
  load_table w self t = (Ok df, t1) ->
  (overwrite self = Some true ->
   execute w self t
   = agnostic_write_file w self df (output_file_path self)
                         (output_conn_id self) t1)
  /\ (overwrite self ≠ Some true -> forall t2,
      file_exists w self (output_file_path self) (output_conn_id self) t1
      = (Ok true, t2) ->
      execute w self t = (Raise FileExistsError, t2)
      /\ exists evs, t2 = t ++ evs /\ none_of is_write evs = true)
  /\ (overwrite self ≠ Some true -> forall t2,
      file_exists w self (output_file_path self) (output_conn_id self) t1
      = (Ok false, t2) ->
      execute w self t
      = agnostic_write_file w self df (output_file_path self)
                            (output_conn_id self) t2).
Proof.
  intros Hl. rewrite (execute_after_load _ _ _ _ _ Hl).
  unfold write_policy. split; [|split].
  - by intros ->.
  - intros Ho t2 Hf. split.
    + rewrite (eq_True_not _ Ho). unfold bind. by rewrite Hf.
    + destruct (grows_load_table w self t) as (evs1 & Ht1 & Hevs1).
      destruct (grows_file_exists w self (output_file_path self)
                  (output_conn_id self) t1) as (evs2 & Ht2 & Hevs2).
      rewrite Hl in Ht1. rewrite Hf in Ht2. simpl in *. subst.
      exists (evs1 ++ evs2). split; [by rewrite app_assoc|].
      unfold none_of. rewrite forallb_app.
      unfold not_write in *. by rewrite Hevs1, Hevs2.
  - intros Ho t2 Hf. rewrite (eq_True_not _ Ho). unfold bind. by rewrite Hf.
Qed.

Lemma file_exists_after_transport w self path conn t tp t1 :
  transport_params w path t = (Ok tp, t1) ->
  file_exists w self path conn t
  = match smart_open w t1 path mode_r tp with
    | Ok _ =>
        let s := {| s_path := path; s_mode := mode_r |} in
        let t2 := t1 ++ [Open path mode_r tp] in
        (match stream_exit w t2 s with
         | Ok _ => Ok true
         | Raise e => if is_IOError e then Ok false else Raise e
         end, t2 ++ [Close s])
    | Raise e =>
        (if is_IOError e then Ok false else Raise e,
         t1 ++ [Open path mode_r tp])
    end.
Proof.
  intros Htp. unfold file_exists. unfold bind at 1. rewrite Htp.
  unfold try_except, with_open. rewrite bind_call.
  destruct (smart_open w t1 path mode_r tp) as [[]|e].
  - unfold finally, ret. rewrite bind_call.
    destruct (stream_exit w _ _) as [[]|e]; simpl; [done|].
    by destruct (is_IOError e).
  - by destruct (is_IOError e).
Qed.

(** C3, as the code has it.  Once the transport parameters are resolved,
    an error of the open-for-read that is an IOError makes the probe
    answer false, and the export (overwrite not true) goes on to the
    write step; an error of any other class leaves the probe and ends the
    export, with no write event.  The probe answers true exactly when the
    open succeeds and the stream is then released without an error. *)
Theorem probe_catches_only_IOError w self path conn t tp t1 :
  transport_params w path t = (Ok tp, t1) ->
  let t2 := t1 ++ [Open path mode_r tp] in
  let s := {| s_path := path; s_mode := mode_r |} in
  (forall e, smart_open w t1 path mode_r tp = Raise e ->
     file_exists w self path conn t
     = (if is_IOError e then Ok false else Raise e, t2))
  /\ (forall e df t0,
        smart_open w t1 path mode_r tp = Raise e ->
        load_table w self t0 = (Ok df, t) ->
        overwrite self ≠ Some true ->
        path = output_file_path self -> conn = output_conn_id self ->
        execute w self t0
        = if is_IOError e
          then agnostic_write_file w self df path conn t2
          else (Raise e, t2))
  /\ ((file_exists w self path conn t).1 = Ok true
      <-> smart_open w t1 path mode_r tp = Ok tt
          /\ stream_exit w t2 s = Ok tt).
Proof.
  intros Htp t2 s.
  pose proof (file_exists_after_transport w self path conn t tp t1 Htp) as Hfe.
  split; [|split; [|split]].
  - intros e He. by rewrite Hfe, He.
  - intros e df t0 He Hl Ho -> ->.
    rewrite (execute_after_load _ _ _ _ _ Hl). unfold write_policy.
    rewrite (eq_True_not _ Ho). unfold bind. rewrite Hfe, He.
    by destruct (is_IOError e).
  - intros Htrue. rewrite Hfe in Htrue.
    destruct (smart_open w t1 path mode_r tp) as [[]|e].
    + split; [done|]. simpl in Htrue. fold t2 s in Htrue.
      destruct (stream_exit w t2 s) as [[]|e]; [done|].
      by destruct (is_IOError e).
    + simpl in Htrue. by destruct (is_IOError e).
  - intros [Ho Hx]. rewrite Hfe, Ho. simpl. fold t2 s. by rewrite Hx.
Qed.

Lemma serialiser_unknown (fmt : string) :
  fmt ≠ "csv" -> fmt ≠ "parquet" -> fmt ≠ "json" -> fmt ≠ "ndjson" ->
  serialiser !! fmt = None.
Proof. intros. unfold serialiser. by simplify_map_eq. Qed.

Lemma agnostic_write_file_after_open w self df path conn t tp t1 :
  transport_params w path t = (Ok tp, t1) ->
  smart_open w t1 path mode_wb tp = Ok tt ->
  let s := {| s_path := path; s_mode := mode_wb |} in
  let t2 := t1 ++ [Open path mode_wb tp] in
  agnostic_write_file w self df path conn t
  = match serialiser !! output_file_format self with
    | Some r =>
        let kw := default ∅ (serialiser_params !! output_file_format self) in
        let t3 := t2 ++ [Serialise r s kw df] in
        (match serialise w t2 r s kw df, stream_exit w t3 s with
         | _, Raise e => Raise e
         | Ok _, Ok _ => Ok tt
         | Raise e, Ok _ => Raise e
         end, t3 ++ [Close s])
    | None =>
        (match stream_exit w t2 s with
         | Ok _ => Raise (KeyError (output_file_format self))
         | Raise e => Raise e
         end, t2 ++ [Close s])
    end.
Proof.
  intros Htp Ho s t2. unfold agnostic_write_file. unfold bind at 1.
  rewrite Htp. unfold with_open. rewrite bind_call, Ho.
  unfold finally, dict_getitem. fold s t2.
  destruct (serialiser !! output_file_format self) as [r|].
  - rewrite bind_ret_l. unfold call at 1.
    destruct (serialise w t2 r s _ df) as [[]|e]; rewrite bind_call;
      by destruct (stream_exit w _ s) as [[]|e'].
  - rewrite bind_raise_l, bind_call.
    by destruct (stream_exit w t2 s) as [[]|e'].
Qed.

Lemma write_unknown_format_fails w self df path conn t :
  serialiser !! output_file_format self = None ->
  is_Ok (agnostic_write_file w self df path conn t).1 = false.
Proof.
  intros Hfmt. destruct (transport_params w path t) as [[tp|e] t1] eqn:Htp.
  - destruct (smart_open w t1 path mode_wb tp) as [[]|e] eqn:Ho.
    + rewrite (agnostic_write_file_after_open _ _ _ _ _ _ _ _ Htp Ho), Hfmt.
      simpl. by destruct (stream_exit w _ _).
    + unfold agnostic_write_file. unfold bind at 1. rewrite Htp.
      unfold with_open. by rewrite bind_call, Ho.
  - unfold agnostic_write_file. unfold bind at 1. by rewrite Htp.
Qed.

Lemma grows_write_unknown_format w self df path conn :
  serialiser !! output_file_format self = None ->
  grows_by not_serialise (agnostic_write_file w self df path conn).
Proof.
  intros Hfmt. unfold agnostic_write_file.
  apply grows_bind; [by apply grows_transport_params|].
  intros tp. apply grows_with_open; [done|done|].
  intros s. unfold dict_getitem. rewrite Hfmt.
  intros t. exists []. by rewrite app_nil_r.
Qed.

Lemma grows_execute_unknown_format w self :
  serialiser !! output_file_format self = None ->
  grows_by not_serialise (execute w self).
Proof.
  intros Hfmt. unfold execute. apply grows_bind.
  - eapply grows_weaken; [|apply grows_load_table].
    by intros [].
  - intros df. unfold write_policy. destruct (eq_True (overwrite self)).
    + by apply grows_write_unknown_format.
    + apply grows_bind.
      * eapply grows_weaken; [|apply grows_file_exists]. by intros [].
      * intros [|]; simpl; [apply grows_raise|].
        by apply grows_write_unknown_format.
Qed.

(** C2, as the code has it.  With a format selector outside csv,
    parquet, json and ndjson the export never succeeds and never hands
    anything to a serialiser; when the write step is reached and the
    destination opens for writing, the selector is looked up only then:
    the history ends with the open in mode wb and the release of the
    stream, and the error is KeyError on the selector (or the error of
    the release). *)
Theorem unknown_format_raises_after_open w self df path conn t tp t1 :
  output_file_format self ≠ "csv" ->
  output_file_format self ≠ "parquet" ->
  output_file_format self ≠ "json" ->
  output_file_format self ≠ "ndjson" ->
  (forall t0, is_Ok (execute w self t0).1 = false
     /\ exists evs, (execute w self t0).2 = t0 ++ evs
                    /\ none_of is_serialise evs = true)
  /\ (transport_params w path t = (Ok tp, t1) ->
      smart_open w t1 path mode_wb tp = Ok tt ->
      let s := {| s_path := path; s_mode := mode_wb |} in
      let t2 := t1 ++ [Open path mode_wb tp] in
      agnostic_write_file w self df path conn t
      = (match stream_exit w t2 s with
         | Ok _ => Raise (KeyError (output_file_format self))
         | Raise e => Raise e
         end, t2 ++ [Close s])).
Proof.
  intros H1 H2 H3 H4.
  pose proof (serialiser_unknown _ H1 H2 H3 H4) as Hfmt.
  split.
  - intros t0. split.
    + unfold execute, bind.
      destruct (load_table w self t0) as [[df0|e] t'] ; [|done].
      unfold write_policy. destruct (eq_True (overwrite self)).
      * by apply write_unknown_format_fails.
      * unfold bind.
        destruct (file_exists w self _ _ t') as [[[|]|e] t'']; try done.
        by apply write_unknown_format_fails.
    + apply (grows_execute_unknown_format w self Hfmt).
  - intros Htp Ho.
    by rewrite (agnostic_write_file_after_open _ _ _ _ _ _ _ _ Htp Ho), Hfmt.
Qed.

(** *** The theorems at concrete invocations *)

Import SaveFileExamples.

Lemma unknown_scheme_raises_KeyError_witness :
  file_exists (world "postgres" (Ok tt))
              (export "http://host/out.csv" "csv" None)
              "http://host/out.csv" None loaded
  = (Raise (KeyError "http"), loaded)
  /\ agnostic_write_file (world "postgres" (Ok tt))
                         (export "http://host/out.csv" "csv" None)
                         orders_df "http://host/out.csv" None loaded
     = (Raise (KeyError "http"), loaded).
Proof.
  refine (unknown_scheme_raises_KeyError (world "postgres" (Ok tt))
            (export "http://host/out.csv" "csv" None) orders_df
            "http://host/out.csv" None loaded _ _ _);
    vm_compute; discriminate.
Defined.

Lemma unknown_conn_type_raises_AttributeError_witness :
  (exists rest,
     (execute (world "mysql" (Ok tt)) (export "out.csv" "csv" None) []).2
     = [] ++ eager_calls orders ++ rest)
  /\ execute (world "mysql" (Ok tt)) (export "out.csv" "csv" None) []
     = (Raise (AttributeError "NoneType" "get_sqlalchemy_engine"),
        [] ++ eager_calls orders).
Proof.
  destruct (unknown_conn_type_raises_AttributeError
              (world "mysql" (Ok tt)) (export "out.csv" "csv" None)
              orders "mysql" [] eq_refl eq_refl) as [Heager Hfail].
  split; [exact Heager|]. apply Hfail; discriminate.
Defined.

Lemma overwrite_policy_witness :
  execute (world "postgres" (Ok tt)) (export "out.csv" "csv" (Some true)) []
  = agnostic_write_file (world "postgres" (Ok tt))
      (export "out.csv" "csv" (Some true)) orders_df "out.csv" None loaded
  /\ execute (world "postgres" (Ok tt))
             (export "out.csv" "csv" (Some false)) []
     = (Raise FileExistsError,
        loaded ++ [Open "out.csv" mode_r None;
                   Close {| s_path := "out.csv"; s_mode := mode_r |}])
  /\ execute (world "postgres" (Raise (IOError "No such file")))
             (export "out.csv" "csv" (Some false)) []
     = agnostic_write_file (world "postgres" (Raise (IOError "No such file")))
         (export "out.csv" "csv" (Some false)) orders_df "out.csv" None
         (loaded ++ [Open "out.csv" mode_r None]).
Proof.
  split; [|split].
  - refine (proj1 (overwrite_policy (world "postgres" (Ok tt))
                     (export "out.csv" "csv" (Some true)) [] orders_df loaded
                     _) _); by vm_compute.
  - refine (proj1 (proj1 (proj2 (overwrite_policy (world "postgres" (Ok tt))
                     (export "out.csv" "csv" (Some false)) [] orders_df
                     loaded _)) _ _ _)); by vm_compute.
  - refine (proj2 (proj2 (overwrite_policy
                     (world "postgres" (Raise (IOError "No such file")))
                     (export "out.csv" "csv" (Some false)) [] orders_df
                     loaded _)) _ _ _); by vm_compute.
Defined.

(** C3 does not hold as worded: the open for read of a bucket object
    raises an error that is not an IOError; the probe does not answer
    false but raises that error, and the export ends with it instead of
    going on to write. *)
Lemma probe_error_is_not_reported_as_absent :
  smart_open (world "postgres" (Raise (OtherError "Forbidden")))
             (loaded ++ [CallProvider gcs_client]) "gs://bucket/out.csv"
             mode_r (Some (Transport "client"))
  = Raise (OtherError "Forbidden")
  /\ (file_exists (world "postgres" (Raise (OtherError "Forbidden")))
                  (export "gs://bucket/out.csv" "csv" None)
                  "gs://bucket/out.csv" None loaded).1
     = Raise (OtherError "Forbidden")
  /\ (file_exists (world "postgres" (Raise (OtherError "Forbidden")))
                  (export "gs://bucket/out.csv" "csv" None)
                  "gs://bucket/out.csv" None loaded).1
     ≠ Ok false
  /\ execute (world "postgres" (Raise (OtherError "Forbidden")))
             (export "gs://bucket/out.csv" "csv" None) []
     = (Raise (OtherError "Forbidden"),
        loaded ++ [CallProvider gcs_client;
                   Open "gs://bucket/out.csv" mode_r
                        (Some (Transport "client"))])
  /\ some_of is_write
       (execute (world "postgres" (Raise (OtherError "Forbidden")))
                (export "gs://bucket/out.csv" "csv" None) []).2
     = false.
Proof. by vm_compute. Qed.

Lemma probe_catches_only_IOError_witness :
  file_exists (world "postgres" (Raise (IOError "No such file")))
              (export "out.csv" "csv" None) "out.csv" None loaded
  = (Ok false, loaded ++ [Open "out.csv" mode_r None])
  /\ execute (world "postgres" (Raise (OtherError "Forbidden")))
             (export "out.csv" "csv" None) []
     = (Raise (OtherError "Forbidden"),
        loaded ++ [Open "out.csv" mode_r None])
  /\ (file_exists (world "postgres" (Ok tt))
                  (export "out.csv" "csv" None) "out.csv" None loaded).1
     = Ok true.
Proof.
  split; [|split].
  - refine (proj1 (probe_catches_only_IOError
                     (world "postgres" (Raise (IOError "No such file")))
                     (export "out.csv" "csv" None) "out.csv" None loaded
                     None loaded _) (IOError "No such file") _);
      by vm_compute.
  - refine (proj1 (proj2 (probe_catches_only_IOError
                     (world "postgres" (Raise (OtherError "Forbidden")))
                     (export "out.csv" "csv" None) "out.csv" None loaded
                     None loaded _))
                  (OtherError "Forbidden") orders_df [] _ _ _ _ _);
      by vm_compute.
  - refine (proj2 (proj2 (proj2 (probe_catches_only_IOError
                     (world "postgres" (Ok tt))
                     (export "out.csv" "csv" None) "out.csv" None loaded
                     None loaded _))) _); by vm_compute.
Defined.

(** C2 does not hold as worded: with the selector xml and overwrite
    true, on a local path, the destination is opened in mode wb before
    the selector is looked up; KeyError is raised with that open already
    in the history. *)
Lemma unknown_format_opens_destination_first :
  serialiser !! output_file_format (export "out.xml" "xml" (Some true))
  = None
  /\ execute (world "postgres" (Ok tt)) (export "out.xml" "xml" (Some true))
             []
     = (Raise (KeyError "xml"),
        loaded ++ [Open "out.xml" mode_wb None;
                   Close {| s_path := "out.xml"; s_mode := mode_wb |}])
  /\ none_of is_open_wb
       (execute (world "postgres" (Ok tt))
                (export "out.xml" "xml" (Some true)) []).2
     = false.
Proof. by vm_compute. Qed.

Lemma unknown_format_raises_after_open_witness :
  (is_Ok (execute (world "postgres" (Ok tt))
                  (export "out.xml" "xml" None) []).1 = false
   /\ exists evs,
        (execute (world "postgres" (Ok tt))
                 (export "out.xml" "xml" None) []).2 = [] ++ evs
        /\ none_of is_serialise evs = true)
  /\ agnostic_write_file (world "postgres" (Ok tt))
       (export "out.xml" "xml" None) orders_df "out.xml" None loaded
     = (Raise (KeyError "xml"),
        (loaded ++ [Open "out.xml" mode_wb None])
        ++ [Close {| s_path := "out.xml"; s_mode := mode_wb |}]).
Proof.
  destruct (unknown_format_raises_after_open (world "postgres" (Ok tt))
              (export "out.xml" "xml" None) orders_df "out.xml" None
              loaded None loaded)
    as [Hfail Hopen]; try discriminate.
  split; [exact (Hfail [])|]. by apply Hopen.
Defined.

End SaveFileFacts.

(** ** The table append operator: the column lists of the statement *)

Module SqlAppendFacts.
Import SqlAppend PyFacts.

Lemma bind_call_st {A B} ev (answer : list event -> result A)
    (k : A -> M state B) s :
  bind (call ev answer) k s
  = let s' := {| st_trace := st_trace s ++ [ev]; st_heap := st_heap s |} in
    match answer (st_trace s) with
    | Ok a => k a s'
    | Raise e => (Raise e, s')
    end.
Proof. unfold bind, call. by destruct (answer (st_trace s)). Qed.

(** The comprehension over the cast map reads the toolkit and nothing
    else: it leaves the state alone. *)
Lemma casted_fields_pure w items s :
  casted_fields_of w items s = ((casted_fields_of w items initial).1, s).
Proof.
  revert s. induction items as [|[k v] rest IH]; intros s; [done|].
  simpl. unfold bind, getattr_sqlalchemy, py_cast.
  destruct (sqlalchemy w !! v) as [a|]; simpl; [|done].
  destruct (cast_error w a) as [x|]; simpl; [done|].
  rewrite (IH s), (IH initial).
  by destruct (casted_fields_of w rest initial).1.
Qed.

(** One step of the comprehension: the name is looked up, then [cast]
    is called, then the remaining items are processed. *)
Lemma casted_fields_cons w k v rest :
  (casted_fields_of w ((k, v) :: rest) initial).1
  = match sqlalchemy w !! v with
    | None => Raise (AttributeError "sqlalchemy" v)
    | Some a =>
        match cast_error w a with
        | Some x => Raise x
        | None =>
            match (casted_fields_of w rest initial).1 with
            | Ok tl => Ok (PExpr (cast (column k) a) :: tl)
            | Raise e => Raise e
            end
        end
    end.
Proof.
  simpl. unfold bind, getattr_sqlalchemy, py_cast.
  destruct (sqlalchemy w !! v) as [a|]; simpl; [|done].
  destruct (cast_error w a) as [x|]; simpl; [done|].
  rewrite casted_fields_pure.
  by destruct (casted_fields_of w rest initial).1.
Qed.

Lemma casted_fields_length w items fields :
  (casted_fields_of w items initial).1 = Ok fields ->
  length fields = length items.
Proof.
  revert fields. induction items as [|[k v] rest IH]; intros fields.
  - simpl. by intros [= <-].
  - rewrite casted_fields_cons.
    destruct (sqlalchemy w !! v) as [a|]; [|done].
    destruct (cast_error w a) as [x|]; [done|].
    destruct (casted_fields_of w rest initial).1 as [tl|e]; [|done].
    intros [= <-]. simpl. f_equal. by apply IH.
Qed.

Lemma casted_fields_accepted w items :
  Forall (accepted w) items ->
  exists fields, (casted_fields_of w items initial).1 = Ok fields.
Proof.
  induction 1 as [|[k v] rest (a & Ha & Hc) _ [tl IH]]; [by exists []|].
  simpl in Ha. exists (PExpr (cast (column k) a) :: tl).
  by rewrite casted_fields_cons, Ha, Hc, IH.
Qed.

(** A type name that is no attribute of the toolkit makes the
    comprehension raise, at that entry or at an earlier one. *)
Lemma casted_fields_fails w items k v :
  (k, v) ∈ items -> sqlalchemy w !! v = None ->
  exists e, (casted_fields_of w items initial).1 = Raise e.
Proof.
  intros Hin Hv. induction items as [|[k' v'] rest IH]; [by inversion Hin|].
  rewrite casted_fields_cons.
  destruct (sqlalchemy w !! v') as [a|] eqn:E; [|by eexists].
  destruct (cast_error w a) as [x|]; [by eexists|].
  assert (Hrest : (k, v) ∈ rest).
  { apply elem_of_cons in Hin as [[= -> ->]|]; [congruence|done]. }
  destruct (IH Hrest) as (e & ->). by eexists.
Qed.

(** The entries before the first one that fails do not show in the
    outcome: the error is the one of that entry. *)
Lemma casted_fields_first_failure w pre k v post e :
  Forall (accepted w) pre ->
  entry_error w v = Some e ->
  (casted_fields_of w (pre ++ (k, v) :: post) initial).1 = Raise e.
Proof.
  intros Hpre He. unfold entry_error in He.
  induction Hpre as [|[k' v'] pre (a & Ha & Hc) _ IH]; simpl app;
    rewrite casted_fields_cons.
  - destruct (sqlalchemy w !! v) as [b|]; [by rewrite He|by injection He as <-].
  - simpl in Ha. by rewrite Ha, Hc, IH.
Qed.

Lemma deref_app_r (h rest : list (list pyval)) k :
  deref (h ++ rest) (length h + k) = deref rest k.
Proof.
  unfold deref. rewrite lookup_app_r by lia.
  by replace (length h + k - length h) with k by lia.
Qed.

Lemma deref_app_0 (h rest : list (list pyval)) :
  deref (h ++ rest) (length h) = deref rest 0.
Proof. rewrite <- (deref_app_r h rest 0). f_equal. lia. Qed.

Lemma insert_app_0 (h rest : list (list pyval)) x :
  <[length h := x]> (h ++ rest) = h ++ <[0 := x]> rest.
Proof. rewrite <- (insert_app_r h rest 0). f_equal. lia. Qed.

Lemma deref_cons_0 (x : list pyval) l : deref (x :: l) 0 = x.
Proof. done. Qed.

Lemma deref_cons_S (x : list pyval) l k : deref (x :: l) (S k) = deref l k.
Proof. done. Qed.

Ltac heap_simpl :=
  repeat (rewrite ?deref_app_r, ?deref_app_0, ?insert_app_r, ?insert_app_0,
            ?deref_cons_0, ?deref_cons_S;
          simpl).

(** The statement [build_statement] returns, read off the store after the
    last [extend]: the fallback branch makes both names hold the one new
    list, the other branch keeps the two lists apart. *)
Lemma build_statement_ok w cols casted mt at_ s fields :
  (casted_fields_of w casted initial).1 = Ok fields ->
  exists s',
    build_statement w cols casted mt at_ s
    = (Ok (if (length cols + length fields =? 0)%nat
           then {| ins_table := mt;
                   ins_names := map (fun c => PExpr (column c)) (t_keys at_)
                                ++ fields;
                   ins_select :=
                     {| sel_columns :=
                          map (fun c => PExpr (column c)) (t_keys at_)
                          ++ fields;
                        sel_from := at_ |} |}
           else {| ins_table := mt;
                   ins_names := map (fun kv => PStr kv.1) casted
                                ++ map PStr cols;
                   ins_select :=
                     {| sel_columns :=
                          map (fun c => PExpr (column c)) cols ++ fields;
                        sel_from := at_ |} |}), s')
    /\ st_trace s' = st_trace s.
Proof.
  intros Hf. destruct s as [t h].
  unfold build_statement, bind, new_list, extend, len, read, ret; simpl.
  rewrite casted_fields_pure, Hf. simpl.
  rewrite <- !app_assoc. simpl.
  rewrite !length_app. simpl.
  replace (length h + 1 + 1) with (length h + 2) by lia.
  replace (length h + 2 + 1) with (length h + 3) by lia.
  heap_simpl. rewrite ?length_map.
  destruct (length cols + length fields =? 0)%nat eqn:E; simpl.
  - rewrite length_app. simpl.
    rewrite <- !app_assoc. simpl. heap_simpl. eauto.
  - heap_simpl. eauto.
Qed.

Lemma build_statement_raise w cols casted mt at_ s e :
  (casted_fields_of w casted initial).1 = Raise e ->
  exists s',
    build_statement w cols casted mt at_ s = (Raise e, s')
    /\ st_trace s' = st_trace s.
Proof.
  intros Hf. destruct s as [t h].
  unfold build_statement, bind, new_list; simpl.
  rewrite casted_fields_pure, Hf. simpl. eauto.
Qed.

Lemma reflect_tables_ok w main app s e km ka :
  get_sql_alchemy_engine w (st_trace s) = Ok e ->
  autoload w (st_trace s ++ [GetEngine]) (get_table_name w main) e = Ok km ->
  autoload w (st_trace s ++ [GetEngine; Reflect (get_table_name w main) e])
           (get_table_name w app) e = Ok ka ->
  reflect_tables w main app s
  = (Ok ({| t_name := get_table_name w main; t_keys := km |},
         {| t_name := get_table_name w app; t_keys := ka |}),
     {| st_trace := st_trace s
                    ++ [GetEngine; Reflect (get_table_name w main) e;
                        Reflect (get_table_name w app) e];
        st_heap := st_heap s |}).
Proof.
  intros He Hm Ha. unfold reflect_tables, SqlaTable.
  rewrite bind_call_st, He. simpl.
  rewrite bind_assoc, bind_call_st. simpl. rewrite Hm.
  unfold bind at 1. unfold ret at 1.
  rewrite bind_assoc, bind_call_st. simpl. rewrite <- app_assoc. simpl.
  rewrite Ha. unfold bind, ret. simpl. by rewrite <- !app_assoc.
Qed.

Lemma reflect_tables_quiet w main app s :
  exists evs, st_trace (reflect_tables w main app s).2 = st_trace s ++ evs
              /\ forallb (fun ev => negb (is_execute ev)) evs = true.
Proof.
  unfold reflect_tables, SqlaTable.
  rewrite bind_call_st. simpl.
  destruct (get_sql_alchemy_engine w (st_trace s)) as [e|x];
    [|by exists [GetEngine]].
  rewrite bind_assoc, bind_call_st. simpl.
  destruct (autoload w _ (get_table_name w main) e) as [km|x];
    [|exists [GetEngine; Reflect (get_table_name w main) e];
      by rewrite <- app_assoc].
  unfold bind at 1. unfold ret at 1.
  rewrite bind_assoc, bind_call_st. simpl.
  exists [GetEngine; Reflect (get_table_name w main) e;
          Reflect (get_table_name w app) e].
  destruct (autoload w _ (get_table_name w app) e) as [ka|x]; simpl;
    by rewrite <- !app_assoc.
Qed.

Lemma append_after_reflect w main cols casted app conn s tables s1 :
  reflect_tables w main app s = (Ok tables, s1) ->
  append w main cols casted app conn s
  = build_statement w cols casted tables.1 tables.2 s1.
Proof. intros Hr. unfold append, bind. by rewrite Hr. Qed.

Lemma columns_are_not_casts (names : list string) :
  forallb (fun v => negb (is_cast v))
          (map (fun c => PExpr (column c)) names) = true.
Proof. by induction names. Qed.

(** C5. With an empty column list and an empty cast map, and both tables
    reflected, the statement selects one plain column per key of the
    append table, in the order of its keys, with no cast among them, and
    the destination list is that same list. *)
Theorem empty_selection_takes_source_schema w main app conn s e km ka :
  get_sql_alchemy_engine w (st_trace s) = Ok e ->
  autoload w (st_trace s ++ [GetEngine]) (get_table_name w main) e = Ok km ->
  autoload w (st_trace s ++ [GetEngine; Reflect (get_table_name w main) e])
           (get_table_name w app) e = Ok ka ->
  exists stmt,
    (append w main [] [] app conn s).1 = Ok stmt
    /\ sel_columns (ins_select stmt) = map (fun c => PExpr (column c)) ka
    /\ forallb (fun v => negb (is_cast v)) (sel_columns (ins_select stmt))
       = true
    /\ ins_names stmt = sel_columns (ins_select stmt)
    /\ sel_from (ins_select stmt)
       = {| t_name := get_table_name w app; t_keys := ka |}
    /\ ins_table stmt = {| t_name := get_table_name w main; t_keys := km |}.
Proof.
  intros He Hm Ha.
  rewrite (append_after_reflect _ _ _ _ _ _ _ _ _
             (reflect_tables_ok _ _ _ _ _ _ _ He Hm Ha)).
  cbn [fst snd].
  destruct (build_statement_ok w [] []
              {| t_name := get_table_name w main; t_keys := km |}
              {| t_name := get_table_name w app; t_keys := ka |}
              {| st_trace := st_trace s
                    ++ [GetEngine; Reflect (get_table_name w main) e;
                        Reflect (get_table_name w app) e];
                 st_heap := st_heap s |} [] eq_refl) as (s' & Hb & _).
  simpl in Hb. rewrite Hb. simpl. rewrite app_nil_r.
  eexists. split; [done|]. simpl.
  split; [done|]. split; [apply columns_are_not_casts|done].
Qed.

(** C6. With a cast map that is not empty, the destination list of any
    statement [append] returns is the keys of the cast map, in its
    iteration order, followed by the entries of the column list; and
    [append] does return a statement when both tables reflect and every
    type name of the map is an attribute of the toolkit that cast takes
    as a type. *)
Theorem cast_columns_come_first w main cols casted app conn s :
  casted ≠ [] ->
  (forall stmt,
     (append w main cols casted app conn s).1 = Ok stmt ->
     ins_names stmt = map PStr (casted.*1 ++ cols))
  /\ (forall e km ka,
        get_sql_alchemy_engine w (st_trace s) = Ok e ->
        autoload w (st_trace s ++ [GetEngine]) (get_table_name w main) e
        = Ok km ->
        autoload w (st_trace s
                    ++ [GetEngine; Reflect (get_table_name w main) e])
                 (get_table_name w app) e = Ok ka ->
        Forall (accepted w) casted ->
        exists stmt,
          (append w main cols casted app conn s).1 = Ok stmt
          /\ ins_names stmt = map PStr (casted.*1 ++ cols)).
Proof.
  intros Hne.
  assert (Hnames : map (fun kv : string * string => PStr kv.1) casted
                   ++ map PStr cols = map PStr (casted.*1 ++ cols)).
  { rewrite map_app. f_equal. clear Hne.
    induction casted as [|kv rest IH]; [done|]. simpl. by rewrite IH. }
  assert (Hbuild : forall mt at_ s1 stmt,
            (build_statement w cols casted mt at_ s1).1 = Ok stmt ->
            ins_names stmt = map PStr (casted.*1 ++ cols)).
  { intros mt at_ s1 stmt.
    destruct (casted_fields_of w casted initial).1 as [fields|x] eqn:Hf.
    - destruct (build_statement_ok w cols casted mt at_ s1 fields Hf)
        as (s' & -> & _).
      pose proof (casted_fields_length _ _ _ Hf) as Hlen.
      destruct casted; [done|]. simpl in Hlen.
      replace (length cols + length fields =? 0)%nat with false
        by (symmetry; apply Nat.eqb_neq; lia).
      simpl. by intros [= <-].
    - destruct (build_statement_raise w cols casted mt at_ s1 x Hf)
        as (s' & -> & _). done. }
  split.
  - intros stmt. unfold append, bind.
    destruct (reflect_tables w main app s) as [[tables|x] s1]; [|done].
    apply Hbuild.
  - intros e km ka He Hm Ha Hall.
    rewrite (append_after_reflect _ _ _ _ _ _ _ _ _
               (reflect_tables_ok _ _ _ _ _ _ _ He Hm Ha)).
    cbn [fst snd].
    destruct (casted_fields_accepted _ _ Hall) as (fields & Hf).
    destruct (build_statement_ok w cols casted
                {| t_name := get_table_name w main; t_keys := km |}
                {| t_name := get_table_name w app; t_keys := ka |}
                {| st_trace := st_trace s
                      ++ [GetEngine; Reflect (get_table_name w main) e;
                          Reflect (get_table_name w app) e];
                   st_heap := st_heap s |} fields Hf) as (s' & Hb & _).
    eexists. split; [by rewrite Hb|].
    eapply Hbuild. by rewrite Hb.
Qed.

(** C1, on the code.  For columns=[id] and casted_columns={amount: Float}
    the statement names the destination columns (amount, id) but selects
    (id, CAST(amount AS Float)): the plain columns are selected before
    the casts, so the first selected expression reads id while the first
    destination column is amount. *)
Theorem mixed_append_selects_plain_columns_first
    w main app conn s e km ka ty :
  get_sql_alchemy_engine w (st_trace s) = Ok e ->
  autoload w (st_trace s ++ [GetEngine]) (get_table_name w main) e = Ok km ->
  autoload w (st_trace s ++ [GetEngine; Reflect (get_table_name w main) e])
           (get_table_name w app) e = Ok ka ->
  sqlalchemy w !! "Float" = Some ty ->
  cast_error w ty = None ->
  exists stmt,
    (append w main ["id"] [("amount", "Float")] app conn s).1 = Ok stmt
    /\ ins_names stmt = [PStr "amount"; PStr "id"]
    /\ sel_columns (ins_select stmt)
       = [PExpr (column "id"); PExpr (cast (column "amount") ty)]
    /\ map dest_column (ins_names stmt) = [Some "amount"; Some "id"]
    /\ map source_column (sel_columns (ins_select stmt))
       = [Some "id"; Some "amount"].
Proof.
  intros He Hm Ha Hty Hcast.
  rewrite (append_after_reflect _ _ _ _ _ _ _ _ _
             (reflect_tables_ok _ _ _ _ _ _ _ He Hm Ha)).
  cbn [fst snd].
  assert (Hf : (casted_fields_of w [("amount", "Float")] initial).1
               = Ok [PExpr (cast (column "amount") ty)]).
  { by rewrite casted_fields_cons, Hty, Hcast. }
  destruct (build_statement_ok w ["id"] [("amount", "Float")]
              {| t_name := get_table_name w main; t_keys := km |}
              {| t_name := get_table_name w app; t_keys := ka |}
              {| st_trace := st_trace s
                    ++ [GetEngine; Reflect (get_table_name w main) e;
                        Reflect (get_table_name w app) e];
                 st_heap := st_heap s |} _ Hf) as (s' & Hb & _).
  rewrite Hb. simpl. eexists. split; [done|]. by simpl.
Qed.

(** C8, as the code has it.  When some entry of the cast map names a
    type that is not an attribute of the toolkit, the operator fails and
    nothing is handed to the database for execution.  When both tables
    reflect, so that the statement is being built, and every entry
    before that one names an attribute that cast takes as a type, the
    error is AttributeError on that name, raised with nothing called
    after the reflection. *)
Theorem unknown_cast_type_raises_AttributeError w self s k v :
  (k, v) ∈ casted_columns self ->
  sqlalchemy w !! v = None ->
  is_Ok (execute w self s).1 = false
  /\ (exists evs,
        st_trace (execute w self s).2 = st_trace s ++ evs
        /\ forallb (fun ev => negb (is_execute ev)) evs = true)
  /\ (forall tables s1 pre post,
        reflect_tables w (main_table self) (append_table self) s
        = (Ok tables, s1) ->
        casted_columns self = pre ++ (k, v) :: post ->
        Forall (accepted w) pre ->
        (execute w self s).1 = Raise (AttributeError "sqlalchemy" v)
        /\ st_trace (execute w self s).2 = st_trace s1).
Proof.
  intros Hin Hv.
  destruct (casted_fields_fails w _ k v Hin Hv) as (e & Hf).
  assert (Hexec : forall x tables s1,
            (casted_fields_of w (casted_columns self) initial).1 = Raise x ->
            reflect_tables w (main_table self) (append_table self) s
            = (Ok tables, s1) ->
            (execute w self s).1 = Raise x
            /\ st_trace (execute w self s).2 = st_trace s1).
  { intros x tables s1 Hx Hr.
    destruct (build_statement_raise w (columns self) (casted_columns self)
                tables.1 tables.2 s1 _ Hx) as (s' & Hb & Ht).
    assert (Hrun : execute w self s = (Raise x, s')).
    { unfold execute. unfold bind at 1.
      by rewrite (append_after_reflect _ _ _ _ _ _ _ _ _ Hr), Hb. }
    by rewrite Hrun. }
  destruct (reflect_tables_quiet w (main_table self) (append_table self) s)
    as (evs & Hevs & Hq).
  destruct (reflect_tables w (main_table self) (append_table self) s)
    as [[tables|x] s1] eqn:Hr.
  - destruct (Hexec e tables s1 Hf eq_refl) as [Hres Htr].
    split; [by rewrite Hres|]. split.
    + exists evs. by rewrite Htr.
    + intros tables' s1' pre post [= <- <-] Hcast Hpre.
      apply (Hexec _ tables s1); [|done]. rewrite Hcast.
      apply casted_fields_first_failure; [done|].
      unfold entry_error. by rewrite Hv.
  - assert (Hx : execute w self s = (Raise x, s1)).
    { unfold execute, append, bind. by rewrite Hr. }
    rewrite Hx. split; [done|]. split; [|done]. by exists evs.
Qed.

(** *** The theorems at concrete invocations *)

Import SqlAppendExamples.

Lemma empty_selection_takes_source_schema_witness :
  exists stmt,
    (append world (named "sales") [] [] (named "orders") "postgres_conn"
            initial).1 = Ok stmt
    /\ sel_columns (ins_select stmt)
       = map (fun c => PExpr (column c)) ["id"; "amount"]
    /\ forallb (fun v => negb (is_cast v)) (sel_columns (ins_select stmt))
       = true
    /\ ins_names stmt = sel_columns (ins_select stmt)
    /\ sel_from (ins_select stmt)
       = {| t_name := "orders"; t_keys := ["id"; "amount"] |}
    /\ ins_table stmt = {| t_name := "sales"; t_keys := ["id"; "amount"] |}.
Proof.
  refine (empty_selection_takes_source_schema world (named "sales")
            (named "orders") "postgres_conn" initial
            (Engine "postgresql://pagila") ["id"; "amount"] ["id"; "amount"]
            _ _ _); by vm_compute.
Defined.

Lemma cast_columns_come_first_witness :
  exists stmt,
    (append world (named "sales") ["id"] [("amount", "Float")]
            (named "orders") "postgres_conn" initial).1 = Ok stmt
    /\ ins_names stmt = map PStr (["amount"] ++ ["id"]).
Proof.
  refine (proj2 (cast_columns_come_first world (named "sales") ["id"]
                   [("amount", "Float")] (named "orders") "postgres_conn"
                   initial _)
                (Engine "postgresql://pagila") ["id"; "amount"]
                ["id"; "amount"] _ _ _ _);
    try discriminate; try (by vm_compute).
  constructor; [|constructor]. exists Float. by vm_compute.
Defined.

Lemma mixed_append_selects_plain_columns_first_witness :
  exists stmt,
    (append world (named "sales") ["id"] [("amount", "Float")]
            (named "orders") "postgres_conn" initial).1 = Ok stmt
    /\ ins_names stmt = [PStr "amount"; PStr "id"]
    /\ sel_columns (ins_select stmt)
       = [PExpr (column "id"); PExpr (cast (column "amount") Float)]
    /\ map dest_column (ins_names stmt) = [Some "amount"; Some "id"]
    /\ map source_column (sel_columns (ins_select stmt))
       = [Some "id"; Some "amount"].
Proof.
  refine (mixed_append_selects_plain_columns_first world (named "sales")
            (named "orders") "postgres_conn" initial
            (Engine "postgresql://pagila") ["id"; "amount"] ["id"; "amount"]
            Float _ _ _ _ _); by vm_compute.
Defined.

Lemma unknown_cast_type_raises_AttributeError_witness :
  (execute world (operator ["id"] [("amount", "Float"); ("day", "Dat")])
           initial).1
  = Raise (AttributeError "sqlalchemy" "Dat")
  /\ st_trace (execute world
                 (operator ["id"] [("amount", "Float"); ("day", "Dat")])
                 initial).2
     = [GetEngine; Reflect "sales" (Engine "postgresql://pagila");
        Reflect "orders" (Engine "postgresql://pagila")].
Proof.
  destruct (unknown_cast_type_raises_AttributeError world
              (operator ["id"] [("amount", "Float"); ("day", "Dat")])
              initial "day" "Dat") as (_ & _ & Hfirst).
  - apply elem_of_cons. right. apply elem_of_cons. by left.
  - by vm_compute.
  - apply (Hfirst
             ({| t_name := "sales"; t_keys := ["id"; "amount"] |},
              {| t_name := "orders"; t_keys := ["id"; "amount"] |})
             {| st_trace := [GetEngine;
                             Reflect "sales" (Engine "postgresql://pagila");
                             Reflect "orders" (Engine "postgresql://pagila")];
                st_heap := [] |}
             [("amount", "Float")] []); [by vm_compute|done|].
    constructor; [|constructor]. exists Float. by vm_compute.
Defined.

(** C8 does not hold as worded: the cast map {a: text, b: Nope} has an
    entry whose type name is no attribute of the toolkit, and both tables
    reflect, yet the operator does not raise AttributeError: the entry
    before it names the function text, on which cast raises TypeError. *)
Lemma earlier_cast_error_comes_first :
  ("b", "Nope") ∈ [("a", "text"); ("b", "Nope")]
  /\ sqlalchemy world_with_text !! "Nope" = None
  /\ reflect_tables world_with_text (named "sales") (named "orders") initial
     = (Ok ({| t_name := "sales"; t_keys := ["id"; "amount"] |},
            {| t_name := "orders"; t_keys := ["id"; "amount"] |}),
        {| st_trace := [GetEngine;
                        Reflect "sales" (Engine "postgresql://pagila");
                        Reflect "orders" (Engine "postgresql://pagila")];
           st_heap := [] |})
  /\ (execute world_with_text
              (operator [] [("a", "text"); ("b", "Nope")]) initial).1
     = Raise (OtherError "TypeError")
  /\ (forall name,
        (execute world_with_text
                 (operator [] [("a", "text"); ("b", "Nope")]) initial).1
        ≠ Raise (AttributeError "sqlalchemy" name)).
Proof.
  split; [apply elem_of_cons; right; apply elem_of_cons; by left|].
  by vm_compute.
Qed.

End SqlAppendFacts.

(** ** The export operator: credentials, hooks and the released stream *)

Module SaveFileMoreFacts.
Import SaveFile PyFacts TraceFacts SaveFileFacts SaveFileMore.

Lemma transport_params_known w path p t :
  transport_dispatch !! urlparse_scheme w path = Some p ->
  transport_params w path t = invoke w p t.
Proof.
  intros Hp. unfold transport_params, dict_getitem. by rewrite Hp.
Qed.

(** A bind whose first part only returns values that satisfy [Q]. *)
Lemma grows_bind_post {A B} P (Q : A -> Prop) (c : M trace A)
    (k : A -> M trace B) :
  (forall t, exists evs, (c t).2 = t ++ evs /\ forallb P evs = true
                         /\ forall a, (c t).1 = Ok a -> Q a) ->
  (forall a, Q a -> grows_by P (k a)) ->
  grows_by P (bind c k).
Proof.
  intros Hc Hk t. unfold bind.
  destruct (Hc t) as (evs & Ht & Hevs & HQ).
  destruct (c t) as [[a|e] t1]; simpl in Ht; subst t1.
  - destruct (Hk a (HQ a eq_refl) (t ++ evs)) as (evs' & Ht' & Hevs').
    exists (evs ++ evs'). rewrite Ht', app_assoc. split; [done|].
    by rewrite forallb_app, Hevs, Hevs'.
  - by exists evs.
Qed.

(** What both methods do after the transport parameters are there, for
    any event predicate that accepts what they open and release. *)
Lemma grows_probe_body P w path tp :
  P (Open path mode_r tp) = true ->
  P (Close {| s_path := path; s_mode := mode_r |}) = true ->
  grows_by P (try_except
                (with_open w path mode_r tp (fun _ => ret true))
                is_IOError (ret false)).
Proof.
  intros HO HC. apply grows_try_except; [|apply grows_ret].
  apply grows_with_open; [done|done|]. intros _. apply grows_ret.
Qed.

Lemma grows_write_body P w self df path tp :
  P (Open path mode_wb tp) = true ->
  P (Close {| s_path := path; s_mode := mode_wb |}) = true ->
  (forall r s kw, P (Serialise r s kw df) = true) ->
  grows_by P
    (with_open w path mode_wb tp (fun stream =>
       let* f := dict_getitem serialiser (output_file_format self) in
       let kw := default ∅ (serialiser_params !! output_file_format self) in
       call (Serialise f stream kw df)
            (fun t => serialise w t f stream kw df))).
Proof.
  intros HO HC HS. apply grows_with_open; [done|done|].
  intros s. apply grows_bind; [apply grows_dict_getitem|].
  intros f. by apply grows_call.
Qed.

Lemma grows_load_table_quiet w self :
  grows_by (fun ev => negb (is_destination_event ev)) (load_table w self).
Proof.
  unfold load_table.
  apply grows_bind; [destruct (input_table self); auto with grows|].
  intros tbl. apply grows_bind; [by apply grows_call|].
  intros ct. do 3 (apply grows_bind; [by apply grows_new_hook|]; intros ?).
  apply grows_bind; [|intros con; by apply grows_call].
  destruct (input_hooks _ _ _ !! ct); [by apply grows_call|apply grows_raise].
Qed.

(** The two methods that reach the destination, under an event
    predicate that the transport step establishes. *)
Lemma grows_destination_steps P (Q : option transport -> Prop) w self df :
  (forall t, exists evs,
     (transport_params w (output_file_path self) t).2 = t ++ evs
     /\ forallb P evs = true
     /\ forall tp, (transport_params w (output_file_path self) t).1 = Ok tp
                   -> Q tp) ->
  (forall tp m, Q tp -> P (Open (output_file_path self) m tp) = true) ->
  (forall s, P (Close s) = true) ->
  (forall r s kw d, P (Serialise r s kw d) = true) ->
  grows_by P (write_policy w self df).
Proof.
  intros Htp HO HC HS.
  assert (Hw : grows_by P (agnostic_write_file w self df
                 (output_file_path self) (output_conn_id self))).
  { unfold agnostic_write_file. eapply grows_bind_post; [exact Htp|].
    intros tp HQ. apply grows_write_body; auto. }
  unfold write_policy. destruct (eq_True (overwrite self)); [exact Hw|].
  apply grows_bind.
  - unfold file_exists. eapply grows_bind_post; [exact Htp|].
    intros tp HQ. apply grows_probe_body; auto.
  - intros [|]; simpl; [apply grows_raise|exact Hw].
Qed.

Lemma grows_execute_of_policy P w self :
  (forall ev, is_destination_event ev = false -> P ev = true) ->
  (forall df, grows_by P (write_policy w self df)) ->
  grows_by P (execute w self).
Proof.
  intros HP Hpol. unfold execute. apply grows_bind; [|done].
  eapply grows_weaken; [|apply grows_load_table_quiet].
  intros ev Hev. apply HP. by apply negb_true_iff.
Qed.

(** X1. An export to a path without a URI scheme calls no credential
    provider, and every open it makes carries no transport parameters. *)
Theorem local_path_uses_no_credentials w self t :
  urlparse_scheme w (output_file_path self) = no_scheme ->
  exists evs, (execute w self t).2 = t ++ evs
              /\ forallb anonymous evs = true.
Proof.
  intros Hs. apply grows_execute_of_policy.
  - by intros [].
  - intros df. apply (grows_destination_steps anonymous (fun tp => tp = None)).
    + intros t0. exists [].
      rewrite (transport_params_known w _ lambda_None)
        by (by rewrite Hs). simpl.
      rewrite app_nil_r. repeat split. by intros tp [= <-].
    + by intros tp m ->.
    + done.
    + done.
Qed.

(** X2. An export to an s3 path calls no provider but s3fs_creds, and an
    export to a gs path calls no provider but gcs_client. *)
Theorem scheme_selects_its_provider w self t p :
  (urlparse_scheme w (output_file_path self), p)
    ∈ [("s3", s3fs_creds); ("gs", gcs_client)] ->
  exists evs, (execute w self t).2 = t ++ evs
              /\ forallb (only_provider p) evs = true.
Proof.
  intros Hin.
  assert (Hp : transport_dispatch !! urlparse_scheme w (output_file_path self)
               = Some p /\ p ≠ lambda_None).
  { repeat (apply elem_of_cons in Hin as [[= -> ->]|Hin]; [done|]).
    by apply elem_of_nil in Hin. }
  destruct Hp as [Hp Hne].
  apply grows_execute_of_policy.
  - by intros [].
  - intros df.
    apply (grows_destination_steps (only_provider p) (fun _ => True));
      try done.
    intros t0. rewrite (transport_params_known w _ p) by done.
    exists [CallProvider p]. destruct p; done.
Qed.

Lemma count_events_app p (a b : trace) :
  count_events p (a ++ b) = count_events p a + count_events p b.
Proof. unfold count_events. by rewrite List.filter_app, length_app. Qed.

Lemma count_events_none p (evs : trace) :
  forallb (fun ev => negb (p ev)) evs = true -> count_events p evs = 0.
Proof.
  unfold count_events. induction evs as [|ev evs IH]; [done|].
  simpl. destruct (p ev); simpl; [done|]. apply IH.
Qed.

Lemma quiet_is_no_provider_call (evs : trace) :
  forallb (fun ev => negb (is_destination_event ev)) evs = true ->
  forallb (fun ev => negb (is_provider_call ev)) evs = true.
Proof.
  rewrite !forallb_forall. intros H ev Hev. specialize (H ev Hev).
  by destruct ev.
Qed.

(** A method that resolves the transport parameters of an s3 or gs path
    and then calls no provider makes exactly one provider call, whatever
    the provider answers. *)
Lemma one_provider_call {A} w path p (k : option transport -> M trace A) t :
  transport_dispatch !! urlparse_scheme w path = Some p ->
  p ≠ lambda_None ->
  (forall tp, grows_by (fun ev => negb (is_provider_call ev)) (k tp)) ->
  exists evs, (bind (transport_params w path) k t).2 = t ++ evs
              /\ count_events is_provider_call evs = 1.
Proof.
  intros Hp Hne Hk. unfold bind.
  rewrite (transport_params_known w path p t Hp).
  assert (Hinv : invoke w p t
                 = (call_provider w t p, t ++ [CallProvider p])).
  { by destruct p. }
  rewrite Hinv. destruct (call_provider w t p) as [tp|e].
  - destruct (Hk tp (t ++ [CallProvider p])) as (evs & Hevs & Hq).
    exists (CallProvider p :: evs). rewrite Hevs, <- app_assoc.
    split; [done|].
    change (CallProvider p :: evs) with ([CallProvider p] ++ evs).
    by rewrite count_events_app, (count_events_none _ _ Hq).
  - by exists [CallProvider p].
Qed.

Lemma known_provider w self p :
  (urlparse_scheme w (output_file_path self), p)
    ∈ [("s3", s3fs_creds); ("gs", gcs_client)] ->
  transport_dispatch !! urlparse_scheme w (output_file_path self) = Some p
  /\ p ≠ lambda_None.
Proof.
  intros Hin.
  repeat (apply elem_of_cons in Hin as [[= -> ->]|Hin]; [done|]).
  by apply elem_of_nil in Hin.
Qed.

(** X3. For an s3 or gs destination the credential provider is called
    once by the existence probe and once more by the write step: after
    the table is loaded, the export makes one provider call when
    overwrite is true or the probe does not answer false, and two when
    the probe answers false. *)
Theorem provider_is_called_again_for_the_write w self t df t1 p :
  (urlparse_scheme w (output_file_path self), p)
    ∈ [("s3", s3fs_creds); ("gs", gcs_client)] ->
  load_table w self t = (Ok df, t1) ->
  exists evs,
    (execute w self t).2 = t ++ evs
    /\ count_events is_provider_call evs
       = if eq_True (overwrite self) then 1
         else match (file_exists w self (output_file_path self)
                       (output_conn_id self) t1).1 with
              | Ok false => 2
              | _ => 1
              end.
Proof.
  intros Hin Hl. destruct (known_provider w self p Hin) as [Hp Hne].
  destruct (grows_load_table_quiet w self t) as (evs0 & Ht1 & Hq0).
  rewrite Hl in Ht1. simpl in Ht1. subst t1.
  apply quiet_is_no_provider_call, count_events_none in Hq0.
  assert (Hwrite : forall t',
            exists evs,
              (agnostic_write_file w self df (output_file_path self)
                 (output_conn_id self) t').2 = t' ++ evs
              /\ count_events is_provider_call evs = 1).
  { intros t'. unfold agnostic_write_file.
    apply (one_provider_call w _ p); [done|done|].
    intros tp. by apply grows_write_body. }
  assert (Hprobe : forall t',
            exists evs,
              (file_exists w self (output_file_path self)
                 (output_conn_id self) t').2 = t' ++ evs
              /\ count_events is_provider_call evs = 1).
  { intros t'. unfold file_exists.
    apply (one_provider_call w _ p); [done|done|].
    intros tp. by apply grows_probe_body. }
  rewrite (execute_after_load _ _ _ _ _ Hl). unfold write_policy.
  destruct (eq_True (overwrite self)).
  - destruct (Hwrite (t ++ evs0)) as (evs & Hevs & Hc).
    exists (evs0 ++ evs). rewrite Hevs, app_assoc. split; [done|].
    rewrite count_events_app. lia.
  - unfold bind.
    destruct (Hprobe (t ++ evs0)) as (evs1 & Hevs1 & Hc1).
    destruct (file_exists w self _ _ (t ++ evs0)) as [[[|]|e] t2];
      simpl in Hevs1; subst t2; simpl.
    + exists (evs0 ++ evs1). rewrite app_assoc. split; [done|].
      rewrite count_events_app. lia.
    + destruct (Hwrite ((t ++ evs0) ++ evs1)) as (evs & Hevs & Hc).
      exists (evs0 ++ evs1 ++ evs). rewrite Hevs, !app_assoc.
      split; [done|]. rewrite !count_events_app. lia.
    + exists (evs0 ++ evs1). rewrite app_assoc. split; [done|].
      rewrite count_events_app. lia.
Qed.

(** X4. Loading the table calls nothing on the destination side; when
    the load raises, the export raises the same error with the history
    the load left, so no provider is called and nothing is opened; and
    an operator without an input table raises AttributeError before it
    calls anything. *)
Theorem failed_load_leaves_destination_alone w self t :
  (exists evs, (load_table w self t).2 = t ++ evs
               /\ none_of is_destination_event evs = true)
  /\ (forall e t1, load_table w self t = (Raise e, t1) ->
        execute w self t = (Raise e, t1))
  /\ (input_table self = None ->
        execute w self t = (Raise (AttributeError "NoneType" "conn_id"), t)).
Proof.
  split; [apply grows_load_table_quiet|]. split.
  - intros e t1 Hl. unfold execute, bind. by rewrite Hl.
  - intros Hnone. unfold execute, load_table. rewrite Hnone.
    by rewrite bind_assoc, bind_raise_l.
Qed.

(** X5. Of the three hooks built, the engine is requested from the one
    the connection type names: the Postgres hook (whose schema argument
    is the table's database) for postgres, the Snowflake hook for
    snowflake, the BigQuery hook without legacy SQL for bigquery.  The
    query handed to read_sql is SELECT * FROM followed by the table's
    name, and an error of the engine request ends the load at once. *)
Theorem engine_comes_from_the_matching_hook w self tbl ct h t :
  input_table self = Some tbl ->
  get_connection w t (conn_id tbl) = Ok ct ->
  (ct, h) ∈ hook_of tbl ->
  let T := t ++ eager_calls tbl in
  let sql := "SELECT * FROM " +:+ get_table_name w tbl in
  load_table w self t
  = match get_sqlalchemy_engine w T h with
    | Ok con => (read_sql w (T ++ [GetEngine h]) sql con,
                 T ++ [GetEngine h; ReadSql sql con])
    | Raise e => (Raise e, T ++ [GetEngine h])
    end.
Proof.
  intros Hin Hconn Hh T sql. unfold load_table. rewrite Hin.
  rewrite bind_ret_l, bind_call, Hconn.
  rewrite !bind_new_hook.
  assert (Hlook : input_hooks (PostgresHook (conn_id tbl) (database tbl))
                    (TempSnowflakeHook (conn_id tbl) (database tbl)
                       (schema tbl) (warehouse tbl))
                    (BigQueryHook false (conn_id tbl)) !! ct = Some h).
  { unfold hook_of in Hh.
    repeat (apply elem_of_cons in Hh as [[= -> ->]|Hh]; [done|]).
    by apply elem_of_nil in Hh. }
  rewrite Hlook, bind_call.
  replace ((((t ++ [GetConnection (conn_id tbl)])
             ++ [NewHook (PostgresHook (conn_id tbl) (database tbl))])
            ++ [NewHook (TempSnowflakeHook (conn_id tbl) (database tbl)
                           (schema tbl) (warehouse tbl))])
           ++ [NewHook (BigQueryHook false (conn_id tbl))]) with T
    by (unfold T, eager_calls; by rewrite <- !app_assoc).
  destruct (get_sqlalchemy_engine w T h) as [con|e]; [|done].
  unfold call. by rewrite <- app_assoc.
Qed.

(** X6. Once the transport parameters are there and the selector is a
    known format: if the destination does not open, the write raises the
    error of the open and neither serialises nor releases anything; if it
    opens, the dataframe is handed to the routine and the stream is
    released whatever the routine did, the write succeeds exactly when
    both the routine and the release succeed, an error of the routine is
    the error of the write when the release succeeds, and an error of the
    release is always the error of the write. *)
Theorem write_releases_the_stream w self df path conn t tp t1 r :
  transport_params w path t = (Ok tp, t1) ->
  serialiser !! output_file_format self = Some r ->
  let s := {| s_path := path; s_mode := mode_wb |} in
  let kw := default ∅ (serialiser_params !! output_file_format self) in
  let t2 := t1 ++ [Open path mode_wb tp] in
  let t3 := t2 ++ [Serialise r s kw df] in
  let run := agnostic_write_file w self df path conn t in
  (forall e, smart_open w t1 path mode_wb tp = Raise e ->
     run = (Raise e, t2))
  /\ (smart_open w t1 path mode_wb tp = Ok tt ->
      run.2 = t3 ++ [Close s]
      /\ (run.1 = Ok tt <->
          serialise w t2 r s kw df = Ok tt /\ stream_exit w t3 s = Ok tt)
      /\ (forall e, serialise w t2 r s kw df = Raise e ->
            stream_exit w t3 s = Ok tt -> run.1 = Raise e)
      /\ (forall e, stream_exit w t3 s = Raise e -> run.1 = Raise e)).
Proof.
  intros Htp Hr s kw t2 t3 run. split.
  - intros e He. unfold run, agnostic_write_file. unfold bind at 1.
    rewrite Htp. unfold with_open. by rewrite bind_call, He.
  - intros Ho. unfold run.
    rewrite (agnostic_write_file_after_open _ _ _ _ _ _ _ _ Htp Ho), Hr.
    subst s kw t2 t3. cbv zeta.
    destruct (serialise w _ r _ _ df) as [[]|e1];
      destruct (stream_exit w _ _) as [[]|e2]; simpl;
      repeat split; try done; try (by intros [??]); try (by intros ? [= <-]).
Qed.

Lemma grows_transport_params_quiet w path :
  grows_by (fun ev => negb (is_serialise ev)) (transport_params w path).
Proof. by apply grows_transport_params. Qed.

(** A write that returns has opened the destination, handed the
    dataframe to the routine of the selector and released the stream, in
    that order, as its last three calls. *)
Lemma write_ok_inv w self df path conn t t' :
  agnostic_write_file w self df path conn t = (Ok tt, t') ->
  exists evs tp r,
    serialiser !! output_file_format self = Some r
    /\ forallb (fun ev => negb (is_serialise ev)) evs = true
    /\ t' = t ++ evs
            ++ [Open path mode_wb tp;
                Serialise r {| s_path := path; s_mode := mode_wb |}
                  (default ∅ (serialiser_params !! output_file_format self))
                  df;
                Close {| s_path := path; s_mode := mode_wb |}].
Proof.
  intros Hrun.
  destruct (grows_transport_params_quiet w path t) as (evs & Hevs & Hq).
  destruct (transport_params w path t) as [[tp|e] t1] eqn:Htp;
    simpl in Hevs; subst t1.
  - destruct (smart_open w (t ++ evs) path mode_wb tp) as [[]|e] eqn:Ho.
    + rewrite (agnostic_write_file_after_open _ _ _ _ _ _ _ _ Htp Ho) in Hrun.
      destruct (serialiser !! output_file_format self) as [r|] eqn:Hr.
      * exists evs, tp, r. split; [done|]. split; [done|].
        simpl in Hrun. injection Hrun as _ <-.
        by rewrite <- !app_assoc.
      * simpl in Hrun. by destruct (stream_exit w _ _).
    + unfold agnostic_write_file in Hrun. unfold bind at 1 in Hrun.
      rewrite Htp in Hrun. unfold with_open in Hrun.
      by rewrite bind_call, Ho in Hrun.
  - unfold agnostic_write_file in Hrun. unfold bind at 1 in Hrun.
    by rewrite Htp in Hrun.
Qed.

Lemma not_write_is_not_serialise (evs : trace) :
  forallb not_write evs = true ->
  forallb (fun ev => negb (is_serialise ev)) evs = true.
Proof.
  rewrite !forallb_forall. intros H ev Hev. specialize (H ev Hev).
  by destruct ev.
Qed.

(** X7. An export that returns has loaded a dataframe and ended with
    exactly these calls: the destination opened in mode wb, that
    dataframe handed to the routine of the selector with the selector's
    options, and the stream released; nothing was handed to a serialiser
    before. *)
Theorem success_means_serialised_and_released w self t :
  (execute w self t).1 = Ok tt ->
  exists df t1 evs tp r,
    load_table w self t = (Ok df, t1)
    /\ serialiser !! output_file_format self = Some r
    /\ none_of is_serialise evs = true
    /\ (execute w self t).2
       = t ++ evs
         ++ [Open (output_file_path self) mode_wb tp;
             Serialise r {| s_path := output_file_path self;
                            s_mode := mode_wb |}
               (default ∅ (serialiser_params !! output_file_format self)) df;
             Close {| s_path := output_file_path self; s_mode := mode_wb |}].
Proof.
  intros Hok.
  destruct (grows_load_table w self t) as (evs0 & Ht1 & Hq0).
  destruct (load_table w self t) as [[df|e] t1] eqn:Hl;
    [|by unfold execute, bind in Hok; rewrite Hl in Hok].
  simpl in Ht1. subst t1.
  apply not_write_is_not_serialise in Hq0.
  rewrite (execute_after_load _ _ _ _ _ Hl) in *.
  unfold write_policy in *.
  destruct (eq_True (overwrite self)).
  - destruct (agnostic_write_file w self df _ _ (t ++ evs0))
      as [[[]|e] t'] eqn:Hw; [|done].
    destruct (write_ok_inv _ _ _ _ _ _ _ Hw) as (evs & tp & r & Hr & Hq & ->).
    exists df, (t ++ evs0), (evs0 ++ evs), tp, r.
    split; [done|]. split; [done|]. split.
    + unfold none_of. by rewrite forallb_app, Hq0, Hq.
    + simpl. by rewrite <- !app_assoc.
  - unfold bind in *.
    destruct (grows_file_exists w self (output_file_path self)
                (output_conn_id self) (t ++ evs0)) as (evs1 & Ht2 & Hq1).
    destruct (file_exists w self _ _ (t ++ evs0)) as [[[|]|e] t2];
      simpl in Ht2; subst t2; try done.
    simpl in *. apply not_write_is_not_serialise in Hq1.
    destruct (agnostic_write_file w self df _ _ ((t ++ evs0) ++ evs1))
      as [[[]|e] t'] eqn:Hw; [|done].
    destruct (write_ok_inv _ _ _ _ _ _ _ Hw) as (evs & tp & r & Hr & Hq & ->).
    exists df, (t ++ evs0), (evs0 ++ evs1 ++ evs), tp, r.
    split; [done|]. split; [done|]. split.
    + unfold none_of. by rewrite !forallb_app, Hq0, Hq1, Hq.
    + simpl. by rewrite <- !app_assoc.
Qed.

(** X8. When the destination opens for read but releasing that stream
    raises an IOError, the probe answers false although the open
    succeeded, and an export whose overwrite is not true goes on to the
    write step. *)
Theorem failed_release_reads_as_absent w self df t0 t tp t1 e :
  load_table w self t0 = (Ok df, t) ->
  overwrite self ≠ Some true ->
  transport_params w (output_file_path self) t = (Ok tp, t1) ->
  smart_open w t1 (output_file_path self) mode_r tp = Ok tt ->
  let s := {| s_path := output_file_path self; s_mode := mode_r |} in
  let t2 := t1 ++ [Open (output_file_path self) mode_r tp] in
  stream_exit w t2 s = Raise e ->
  is_IOError e = true ->
  file_exists w self (output_file_path self) (output_conn_id self) t
  = (Ok false, t2 ++ [Close s])
  /\ execute w self t0
     = agnostic_write_file w self df (output_file_path self)
         (output_conn_id self) (t2 ++ [Close s]).
Proof.
  intros Hl Ho Htp Hopen s t2 Hx He.
  assert (Hfe : file_exists w self (output_file_path self)
                  (output_conn_id self) t = (Ok false, t2 ++ [Close s])).
  { rewrite (file_exists_after_transport _ _ _ _ _ _ _ Htp), Hopen.
    simpl. fold s t2. by rewrite Hx, He. }
  split; [done|].
  rewrite (execute_after_load _ _ _ _ _ Hl). unfold write_policy.
  rewrite (eq_True_not _ Ho). unfold bind. by rewrite Hfe.
Qed.

Lemma has_char_app c (a b : string) :
  has_char c (a +:+ b) = has_char c a || has_char c b.
Proof.
  induction a as [|c' a IH]; [done|]. simpl. by rewrite IH, orb_assoc.
Qed.

Lemma string_app_assoc (a b c : string) :
  (a +:+ b) +:+ c = a +:+ b +:+ c.
Proof.
  induction a as [|x a IH]; [done|].
  change (String x ((a +:+ b) +:+ c) = String x (a +:+ b +:+ c)).
  by rewrite IH.
Qed.

(** A string is cut in one way only at its last underscore. *)
Lemma cut_at_last_underscore (a a' r r' : string) :
  a +:+ "_" +:+ r = a' +:+ "_" +:+ r' ->
  has_char underscore r = false ->
  has_char underscore r' = false ->
  a = a' /\ r = r'.
Proof.
  assert (Hnil : forall s : string, EmptyString +:+ s = s) by done.
  assert (Hcons : forall c (s1 s2 : string),
            String c s1 +:+ s2 = String c (s1 +:+ s2)) by done.
  revert a'. induction a as [|c a IH]; intros [|c' a'] Heq Hr Hr';
    rewrite ?Hnil, ?Hcons, ?Hnil in Heq.
  - by injection Heq as ->.
  - injection Heq as Hhead Htail.
    subst r. rewrite has_char_app, ?Hcons, ?Hnil in Hr. cbn in Hr.
    by rewrite orb_true_r in Hr.
  - injection Heq as Hhead Htail.
    subst r'. rewrite has_char_app, ?Hcons, ?Hnil in Hr'. cbn in Hr'.
    by rewrite orb_true_r in Hr'.
  - injection Heq as Hhead Htail.
    subst c'. destruct (IH a' Htail Hr Hr') as [-> ->]. done.
Qed.

Lemma pretty_N_go_no_underscore x s :
  has_char underscore s = false ->
  has_char underscore (pretty_N_go x s) = false.
Proof.
  revert s. induction (N.lt_wf_0 x) as [x _ IH]; intros s Hs.
  assert (x = 0 ∨ 0 < x)%N as [->|Hx] by lia.
  - by rewrite pretty_N_go_0.
  - rewrite pretty_N_go_step by done. apply IH.
    { by apply N.div_lt. }
    simpl. rewrite Hs. unfold pretty_N_char. by repeat case_match.
Qed.

Lemma pretty_Z_no_underscore (z : Z) :
  has_char underscore (pretty z) = false.
Proof.
  assert (HN : forall n : N, has_char underscore (pretty n) = false).
  { intros n. unfold pretty, pretty_N. case_decide; [done|].
    by apply pretty_N_go_no_underscore. }
  destruct z as [|p|p]; [done|apply (HN (Npos p))|].
  unfold pretty, pretty_Z. rewrite has_char_app. simpl. apply (HN (Npos p)).
Qed.

(** X9. The table name is dag id, task id and run id joined by
    underscores.  Two names that are equal come from the same run id;
    they come from the same dag id and task id as well when neither task
    id has an underscore.  Without that condition different pairs of dag
    id and task id can give one name.  A context without the entry ti
    raises KeyError. *)
Theorem table_name_identifies_its_run
    get_dagrun get_dagrun' (context context' : gmap string TaskInstance)
    ti ti' dag_run dag_run' :
  context !! "ti" = Some ti -> get_dagrun ti = Ok dag_run ->
  context' !! "ti" = Some ti' -> get_dagrun' ti' = Ok dag_run' ->
  create_table_name get_dagrun context
  = create_table_name get_dagrun' context' ->
  dr_id dag_run = dr_id dag_run'
  /\ (has_char underscore (task_id ti) = false ->
      has_char underscore (task_id ti') = false ->
      dag_id dag_run = dag_id dag_run' /\ task_id ti = task_id ti')
  /\ (exists d1 d2 : DagRun, exists i1 i2 : TaskInstance,
        (dag_id d1, task_id i1) ≠ (dag_id d2, task_id i2)
        /\ create_table_name (fun _ => Ok d1) (<["ti" := i1]> ∅)
           = create_table_name (fun _ => Ok d2) (<["ti" := i2]> ∅))
  /\ create_table_name get_dagrun (delete "ti" context)
     = Raise (KeyError "ti").
Proof.
  intros Hti Hdr Hti' Hdr' Heq. unfold create_table_name in Heq.
  rewrite Hti, Hdr, Hti', Hdr' in Heq. injection Heq as Heq.
  assert (Hcut : dag_id dag_run +:+ "_" +:+ task_id ti
                 = dag_id dag_run' +:+ "_" +:+ task_id ti'
                 /\ pretty (dr_id dag_run) = pretty (dr_id dag_run')).
  { apply cut_at_last_underscore; [|apply pretty_Z_no_underscore..].
    by rewrite !string_app_assoc. }
  destruct Hcut as [Hnames Hid]. split; [by apply (inj pretty)|]. split.
  - intros Hu Hu'. by apply cut_at_last_underscore.
  - split.
    + exists {| dag_id := "etl_daily"; dr_id := 7 |},
             {| dag_id := "etl"; dr_id := 7 |},
             {| task_id := "export"; ti_run := "r" |},
             {| task_id := "daily_export"; ti_run := "r" |}.
      split; [done|]. by vm_compute.
    + unfold create_table_name. by rewrite lookup_delete_eq.
Qed.

Lemma table_name_identifies_its_run_witness :
  dr_id {| dag_id := "etl"; dr_id := 12 |}
  = dr_id {| dag_id := "etl"; dr_id := 12 |}
  /\ create_table_name (fun _ => Ok {| dag_id := "etl"; dr_id := 12 |})
       (<["ti" := {| task_id := "export"; ti_run := "r" |}]> ∅)
     = Ok "etl_export_12".
Proof.
  split.
  - refine (proj1 (table_name_identifies_its_run
              (fun _ => Ok {| dag_id := "etl"; dr_id := 12 |})
              (fun _ => Ok {| dag_id := "etl"; dr_id := 12 |})
              (<["ti" := {| task_id := "export"; ti_run := "r" |}]> ∅)
              (<["ti" := {| task_id := "export"; ti_run := "r" |}]> ∅)
              {| task_id := "export"; ti_run := "r" |}
              {| task_id := "export"; ti_run := "r" |}
              {| dag_id := "etl"; dr_id := 12 |}
              {| dag_id := "etl"; dr_id := 12 |} _ _ _ _ _));
      by vm_compute.
  - by vm_compute.
Defined.

(** *** The theorems above at concrete invocations *)

Import SaveFileExamples.

Lemma local_path_uses_no_credentials_witness :
  exists evs,
    (execute (world "postgres" (Raise (IOError "No such file")))
             (export "out.csv" "csv" None) []).2 = [] ++ evs
    /\ forallb anonymous evs = true.
Proof.
  apply (local_path_uses_no_credentials
           (world "postgres" (Raise (IOError "No such file")))
           (export "out.csv" "csv" None) []).
  by vm_compute.
Defined.

Lemma scheme_selects_its_provider_witness :
  exists evs,
    (execute (world "postgres" (Raise (IOError "No such key")))
             (export "gs://bucket/out.csv" "csv" None) []).2 = [] ++ evs
    /\ forallb (only_provider gcs_client) evs = true.
Proof.
  apply (scheme_selects_its_provider
           (world "postgres" (Raise (IOError "No such key")))
           (export "gs://bucket/out.csv" "csv" None) [] gcs_client).
  apply elem_of_cons. right. apply elem_of_cons. by left.
Defined.

Lemma provider_is_called_again_for_the_write_witness :
  exists evs,
    (execute (world "postgres" (Raise (IOError "No such key")))
             (export "s3://bucket/out.csv" "csv" None) []).2 = [] ++ evs
    /\ count_events is_provider_call evs = 2.
Proof.
  apply (provider_is_called_again_for_the_write
           (world "postgres" (Raise (IOError "No such key")))
           (export "s3://bucket/out.csv" "csv" None) [] orders_df loaded
           s3fs_creds).
  - apply elem_of_cons. by left.
  - by vm_compute.
Defined.

Lemma failed_load_leaves_destination_alone_witness :
  execute (world "postgres" (Ok tt))
          {| table := "orders"; output_file_path := "out.csv";
             input_table := None; output_conn_id := None;
             output_file_format := "csv"; overwrite := Some false |} []
  = (Raise (AttributeError "NoneType" "conn_id"), []).
Proof.
  by apply (proj2 (proj2 (failed_load_leaves_destination_alone
                            (world "postgres" (Ok tt))
                            {| table := "orders";
                               output_file_path := "out.csv";
                               input_table := None; output_conn_id := None;
                               output_file_format := "csv";
                               overwrite := Some false |} []))).
Defined.

Lemma engine_comes_from_the_matching_hook_witness :
  load_table (world "snowflake" (Ok tt)) (export "out.csv" "csv" None) []
  = (Ok orders_df,
     ([] ++ eager_calls orders)
     ++ [GetEngine (TempSnowflakeHook "postgres_conn" "pagila" "public"
                                      EmptyString);
         ReadSql "SELECT * FROM orders" (Engine "postgresql://pagila")]).
Proof.
  refine (engine_comes_from_the_matching_hook
            (world "snowflake" (Ok tt)) (export "out.csv" "csv" None)
            orders "snowflake"
            (TempSnowflakeHook "postgres_conn" "pagila" "public" EmptyString)
            [] _ _ _); try (by vm_compute).
  apply elem_of_cons. right. apply elem_of_cons. by left.
Defined.

Lemma write_releases_the_stream_witness :
  (agnostic_write_file (world "postgres" (Ok tt))
     (export "out.parquet" "parquet" None) orders_df "out.parquet" None
     loaded).1 = Ok tt
  <-> serialise (world "postgres" (Ok tt))
        (loaded ++ [Open "out.parquet" mode_wb None]) to_parquet
        {| s_path := "out.parquet"; s_mode := mode_wb |} ∅ orders_df
      = Ok tt
      /\ stream_exit (world "postgres" (Ok tt))
           ((loaded ++ [Open "out.parquet" mode_wb None])
            ++ [Serialise to_parquet
                  {| s_path := "out.parquet"; s_mode := mode_wb |} ∅
                  orders_df])
           {| s_path := "out.parquet"; s_mode := mode_wb |} = Ok tt.
Proof.
  refine (proj1 (proj2 (proj2 (write_releases_the_stream
            (world "postgres" (Ok tt)) (export "out.parquet" "parquet" None)
            orders_df "out.parquet" None loaded None loaded to_parquet
            _ _) _))); by vm_compute.
Defined.

Lemma success_means_serialised_and_released_witness :
  exists df t1 evs tp r,
    load_table (world "postgres" (Ok tt))
               (export "out.json" "json" (Some true)) [] = (Ok df, t1)
    /\ serialiser !! "json" = Some r
    /\ none_of is_serialise evs = true
    /\ (execute (world "postgres" (Ok tt))
                (export "out.json" "json" (Some true)) []).2
       = [] ++ evs
         ++ [Open "out.json" mode_wb tp;
             Serialise r {| s_path := "out.json"; s_mode := mode_wb |}
               (default ∅ (serialiser_params !! "json")) df;
             Close {| s_path := "out.json"; s_mode := mode_wb |}].
Proof.
  apply (success_means_serialised_and_released (world "postgres" (Ok tt))
           (export "out.json" "json" (Some true)) []).
  by vm_compute.
Defined.

Lemma failed_release_reads_as_absent_witness :
  file_exists stale_release (export "out.csv" "csv" (Some false)) "out.csv"
              None loaded
  = (Ok false,
     (loaded ++ [Open "out.csv" mode_r None])
     ++ [Close {| s_path := "out.csv"; s_mode := mode_r |}]).
Proof.
  refine (proj1 (failed_release_reads_as_absent stale_release
                   (export "out.csv" "csv" (Some false)) orders_df []
                   loaded None loaded (IOError "Stale file handle")
                   _ _ _ _ _ _)); by vm_compute.
Defined.

End SaveFileMoreFacts.

(** ** The append operator: alignment, effects and the constructor *)

Module SqlAppendMoreFacts.
Import SqlAppend PyFacts SqlAppendFacts SqlAppendInit.

Lemma casted_fields_sources w items fields :
  (casted_fields_of w items initial).1 = Ok fields ->
  map source_column fields = map Some items.*1
  /\ forallb is_cast fields = true.
Proof.
  revert fields. induction items as [|[k v] rest IH]; intros fields.
  - simpl. by intros [= <-].
  - rewrite casted_fields_cons.
    destruct (sqlalchemy w !! v) as [a|]; [|done].
    destruct (cast_error w a) as [x|]; [done|].
    destruct (casted_fields_of w rest initial).1 as [tl|e] eqn:E; [|done].
    intros [= <-]. destruct (IH tl eq_refl) as [Hs Hc].
    simpl. by rewrite Hs, Hc.
Qed.

Lemma map_Some_inj {A} (l1 l2 : list A) :
  map Some l1 = map Some l2 -> l1 = l2.
Proof.
  revert l2. induction l1 as [|x l1 IH]; intros [|y l2]; try done.
  simpl. intros [= -> H]. by rewrite (IH _ H).
Qed.

(** X10. Whenever the column list or the cast map is not empty, a
    statement that [append] returns names the destination columns cast
    keys first, then plain columns, and selects expressions that read
    plain columns first, then cast keys; the two lists have the same
    length, and they agree position by position exactly when the two
    concatenations coincide, which they do when either input is empty. *)
Theorem select_and_destination_columns w main cols casted app conn s stmt :
  cols ≠ [] \/ casted ≠ [] ->
  (append w main cols casted app conn s).1 = Ok stmt ->
  let dest := map dest_column (ins_names stmt) in
  let src := map source_column (sel_columns (ins_select stmt)) in
  dest = map Some (casted.*1 ++ cols)
  /\ src = map Some (cols ++ casted.*1)
  /\ length (ins_names stmt) = length (sel_columns (ins_select stmt))
  /\ (dest = src <-> casted.*1 ++ cols = cols ++ casted.*1)
  /\ (cols = [] \/ casted = [] -> dest = src).
Proof.
  intros Hne Hok dest src.
  assert (Hlists : dest = map Some (casted.*1 ++ cols)
                   /\ src = map Some (cols ++ casted.*1)
                   /\ length (ins_names stmt)
                      = length (sel_columns (ins_select stmt))).
  { unfold append, bind in Hok.
    destruct (reflect_tables w main app s) as [[tables|x] s1]; [|done].
    destruct (casted_fields_of w casted initial).1 as [fields|x] eqn:Hf.
    - destruct (build_statement_ok w cols casted tables.1 tables.2 s1
                  fields Hf) as (s' & Hb & _).
      rewrite Hb in Hok. simpl in Hok.
      pose proof (casted_fields_length _ _ _ Hf) as Hlen.
      destruct (casted_fields_sources _ _ _ Hf) as [Hsrc _].
      replace (length cols + length fields =? 0)%nat with false in Hok.
      2:{ symmetry. apply Nat.eqb_neq.
          destruct Hne as [Hc|Hc]; [destruct cols|destruct casted];
            simpl in *; try done; lia. }
      injection Hok as <-. unfold dest, src. simpl.
      rewrite !map_app, !map_map. simpl. rewrite Hsrc.
      rewrite !length_app, !length_map, Hlen.
      split; [|split; [|lia]].
      + done.
      + by rewrite map_map.
    - destruct (build_statement_raise w cols casted tables.1 tables.2 s1
                  x Hf) as (s' & Hb & _).
      by rewrite Hb in Hok. }
  destruct Hlists as (Hd & Hs & Hl).
  split; [done|]. split; [done|]. split; [done|].
  assert (Hiff : dest = src <-> casted.*1 ++ cols = cols ++ casted.*1).
  { rewrite Hd, Hs. split; [apply map_Some_inj|by intros ->]. }
  split; [done|].
  intros [->| ->]; apply Hiff; simpl; by rewrite ?app_nil_r.
Qed.

Lemma append_quiet w main cols casted app conn s :
  exists evs,
    st_trace (append w main cols casted app conn s).2 = st_trace s ++ evs
    /\ forallb (fun ev => negb (is_execute ev)) evs = true.
Proof.
  destruct (reflect_tables_quiet w main app s) as (evs & Hevs & Hq).
  exists evs. split; [|done]. unfold append, bind.
  destruct (reflect_tables w main app s) as [[tables|x] s1]; [|done].
  simpl in Hevs. rewrite <- Hevs.
  destruct (casted_fields_of w casted initial).1 as [fields|x] eqn:Hf.
  - destruct (build_statement_ok w cols casted tables.1 tables.2 s1
                fields Hf) as (s' & -> & Ht). done.
  - destruct (build_statement_raise w cols casted tables.1 tables.2 s1
                x Hf) as (s' & -> & Ht). done.
Qed.

(** X11. An execution that returns has built a statement, handed
    exactly that statement to the database as its last call, and
    executed nothing before it. *)
Theorem success_means_built_statement_ran w self s :
  (execute w self s).1 = Ok tt ->
  exists stmt s1 evs,
    append w (main_table self) (columns self) (casted_columns self)
           (append_table self) (op_conn_id self) s = (Ok stmt, s1)
    /\ st_trace s1 = st_trace s ++ evs
    /\ forallb (fun ev => negb (is_execute ev)) evs = true
    /\ run_sql w (st_trace s1) stmt = Ok tt
    /\ st_trace (execute w self s).2 = st_trace s1 ++ [Execute stmt].
Proof.
  intros Hok.
  destruct (append_quiet w (main_table self) (columns self)
              (casted_columns self) (append_table self) (op_conn_id self) s)
    as (evs & Hevs & Hq).
  unfold execute in *. unfold bind in *.
  destruct (append w _ _ _ _ _ s) as [[stmt|x] s1]; [|done].
  exists stmt, s1, evs. simpl in *.
  destruct (run_sql w (st_trace s1) stmt) as [[]|x]; done.
Qed.

(** X12. When the engine cannot be obtained no table is reflected; when
    the main table does not reflect the append table is not looked at;
    in each case, and when the append table does not reflect, the
    operator raises that error, builds no list and executes nothing. *)
Theorem failed_reflection_stops_the_append w self s :
  let main := get_table_name w (main_table self) in
  let app := get_table_name w (append_table self) in
  let stopped evs :=
    {| st_trace := st_trace s ++ evs; st_heap := st_heap s |} in
  (forall x, get_sql_alchemy_engine w (st_trace s) = Raise x ->
     execute w self s = (Raise x, stopped [GetEngine]))
  /\ (forall e x,
        get_sql_alchemy_engine w (st_trace s) = Ok e ->
        autoload w (st_trace s ++ [GetEngine]) main e = Raise x ->
        execute w self s = (Raise x, stopped [GetEngine; Reflect main e]))
  /\ (forall e km x,
        get_sql_alchemy_engine w (st_trace s) = Ok e ->
        autoload w (st_trace s ++ [GetEngine]) main e = Ok km ->
        autoload w (st_trace s ++ [GetEngine; Reflect main e]) app e
        = Raise x ->
        execute w self s
        = (Raise x, stopped [GetEngine; Reflect main e; Reflect app e])).
Proof.
  intros main app stopped.
  assert (Hfail : forall x s1,
            reflect_tables w (main_table self) (append_table self) s
            = (Raise x, s1) ->
            execute w self s = (Raise x, s1)).
  { intros x s1 Hr. unfold execute, append, bind. by rewrite Hr. }
  split; [|split].
  - intros x He. apply Hfail. unfold reflect_tables.
    by rewrite bind_call_st, He.
  - intros e x He Hm. apply Hfail. unfold reflect_tables, SqlaTable.
    rewrite bind_call_st, He. simpl.
    rewrite bind_assoc, bind_call_st. simpl. fold main. rewrite Hm.
    unfold stopped. by rewrite <- app_assoc.
  - intros e km x He Hm Ha. apply Hfail. unfold reflect_tables, SqlaTable.
    rewrite bind_call_st, He. simpl.
    rewrite bind_assoc, bind_call_st. simpl. fold main. rewrite Hm.
    unfold bind at 1. unfold ret at 1.
    rewrite bind_assoc, bind_call_st. simpl. rewrite <- app_assoc. simpl.
    fold app. rewrite Ha. unfold stopped. by rewrite <- !app_assoc.
Qed.

(** X14. The entries of the cast map are processed in its iteration
    order, each one looking its type name up and then calling cast: once
    both tables reflect, and with every entry before it accepted, an
    entry whose name is no attribute of the toolkit raises AttributeError
    on that name, and an entry whose attribute cast does not take as a
    type raises the error of cast; the entries after it are not looked
    at, and nothing is called after the reflection. *)
Theorem first_failing_entry_decides_the_error
    w self s pre k v post tables s1 :
  casted_columns self = pre ++ (k, v) :: post ->
  Forall (accepted w) pre ->
  reflect_tables w (main_table self) (append_table self) s
  = (Ok tables, s1) ->
  (sqlalchemy w !! v = None ->
   (execute w self s).1 = Raise (AttributeError "sqlalchemy" v)
   /\ st_trace (execute w self s).2 = st_trace s1)
  /\ (forall a x,
        sqlalchemy w !! v = Some a -> cast_error w a = Some x ->
        (execute w self s).1 = Raise x
        /\ st_trace (execute w self s).2 = st_trace s1).
Proof.
  intros Hcast Hpre Hr.
  assert (Hrun : forall e,
            entry_error w v = Some e ->
            (execute w self s).1 = Raise e
            /\ st_trace (execute w self s).2 = st_trace s1).
  { intros e He.
    pose proof (casted_fields_first_failure w pre k v post e Hpre He) as Hf.
    rewrite <- Hcast in Hf.
    destruct (build_statement_raise w (columns self) (casted_columns self)
                tables.1 tables.2 s1 _ Hf) as (s' & Hb & Ht).
    assert (Hx : execute w self s = (Raise e, s')).
    { unfold execute. unfold bind at 1.
      by rewrite (append_after_reflect _ _ _ _ _ _ _ _ _ Hr), Hb. }
    by rewrite Hx. }
  split.
  - intros Hv. apply Hrun. unfold entry_error. by rewrite Hv.
  - intros a x Ha Hx. apply Hrun. unfold entry_error. by rewrite Ha.
Qed.

Lemma repeats_written_keyword (kwargs : gmap string pyobj) k :
  k ∈ written_keywords -> is_Some (kwargs !! k) ->
  repeats_keyword kwargs = true.
Proof.
  intros Hk Hsome. unfold repeats_keyword. apply existsb_exists.
  exists k. split; [by apply list_elem_of_In|]. by apply bool_decide_eq_true.
Qed.

Lemma no_repeat_no_task_id (kwargs : gmap string pyobj) :
  repeats_keyword kwargs = false -> kwargs !! "task_id" = None.
Proof.
  intros Hno. destruct (kwargs !! "task_id") as [v|] eqn:Hv; [|done].
  rewrite (repeats_written_keyword kwargs "task_id") in Hno; [done| |by eexists].
  unfold written_keywords. set_solver.
Qed.

(** X15. Once the task id is generated: keyword arguments that repeat
    one of the keywords written in the call of the parent constructor,
    task_id among them, make the constructor raise TypeError before the
    parent constructor is entered; otherwise the parent constructor is
    called with the generated task id and with the database, schema,
    warehouse and connection of the main table.  A task id given by the
    caller is therefore never the one the parent receives. *)
Theorem caller_task_id_never_reaches_parent
    w append_table main_table columns casted_columns kwargs t id :
  get_unique_task_id w t "append_table" = Ok id ->
  let t1 := t ++ [GetUniqueTaskId "append_table"] in
  let run := init w append_table main_table columns casted_columns kwargs t in
  (forall k, k ∈ written_keywords -> is_Some (kwargs !! k) ->
     run = (Raise (OtherError "TypeError"), t1))
  /\ (repeats_keyword kwargs = false ->
      exists args,
        run.2 = t1 ++ [SuperInit args]
        /\ sa_task_id args = PyStr id
        /\ rest args = kwargs
        /\ (sa_database args, sa_schema args, sa_warehouse args,
            sa_conn_id args)
           = (database main_table, schema main_table, warehouse main_table,
              conn_id main_table)
        /\ (is_Ok run.1 = true -> is_Ok (super_init w t1 args) = true)).
Proof.
  intros Hid t1 run. split.
  - intros k Hk Hsome. unfold run, init, bind, init_call. rewrite Hid.
    by rewrite (repeats_written_keyword kwargs k Hk Hsome).
  - intros Hno. unfold run, init, bind, init_call. rewrite Hid, Hno.
    rewrite (no_repeat_no_task_id kwargs Hno). simpl.
    eexists. split; [by destruct (super_init w _ _)|].
    repeat split. fold t1. by destruct (super_init w t1 _).
Qed.

(** *** The theorems above at concrete invocations *)

Import SqlAppendExamples.

Lemma select_and_destination_columns_witness :
  map dest_column
      [PStr "amount"; PStr "id"]
  = map Some (["amount"] ++ ["id"])
  /\ map source_column
       [PExpr (column "id"); PExpr (cast (column "amount") Float)]
     = map Some (["id"] ++ ["amount"]).
Proof.
  destruct (select_and_destination_columns world (named "sales") ["id"]
              [("amount", "Float")] (named "orders") "postgres_conn" initial
              {| ins_table := {| t_name := "sales";
                                 t_keys := ["id"; "amount"] |};
                 ins_names := [PStr "amount"; PStr "id"];
                 ins_select :=
                   {| sel_columns :=
                        [PExpr (column "id");
                         PExpr (cast (column "amount") Float)];
                      sel_from := {| t_name := "orders";
                                     t_keys := ["id"; "amount"] |} |} |})
    as (Hd & Hs & _).
  - by left.
  - by vm_compute.
  - by split.
Defined.

Lemma success_means_built_statement_ran_witness :
  exists stmt s1 evs,
    append world (named "sales") ["id"; "amount"] [] (named "orders")
           "postgres_conn" initial = (Ok stmt, s1)
    /\ st_trace s1 = st_trace initial ++ evs
    /\ forallb (fun ev => negb (is_execute ev)) evs = true
    /\ run_sql world (st_trace s1) stmt = Ok tt
    /\ st_trace (execute world (operator ["id"; "amount"] []) initial).2
       = st_trace s1 ++ [Execute stmt].
Proof.
  apply (success_means_built_statement_ran world
           (operator ["id"; "amount"] []) initial).
  by vm_compute.
Defined.

Lemma failed_reflection_stops_the_append_witness :
  execute world
    {| append_table := named "refunds"; main_table := named "sales";
       columns := ["id"]; casted_columns := []; op_conn_id := "postgres_conn" |}
    initial
  = (Raise (OtherError "NoSuchTableError"),
     {| st_trace := st_trace initial
                    ++ [GetEngine;
                        Reflect "sales" (Engine "postgresql://pagila");
                        Reflect "refunds" (Engine "postgresql://pagila")];
        st_heap := st_heap initial |}).
Proof.
  refine (proj2 (proj2 (failed_reflection_stops_the_append world
            {| append_table := named "refunds"; main_table := named "sales";
               columns := ["id"]; casted_columns := [];
               op_conn_id := "postgres_conn" |} initial))
            (Engine "postgresql://pagila") ["id"; "amount"]
            (OtherError "NoSuchTableError") _ _ _); by vm_compute.
Defined.

Lemma first_failing_entry_decides_the_error_witness :
  (execute world_with_text
     (operator [] [("amount", "Float"); ("id", "text"); ("day", "Dat")])
     initial).1
  = Raise (OtherError "TypeError").
Proof.
  refine (proj1 (proj2 (first_failing_entry_decides_the_error
            world_with_text
            (operator [] [("amount", "Float"); ("id", "text");
                          ("day", "Dat")])
            initial [("amount", "Float")] "id" "text" [("day", "Dat")]
            ({| t_name := "sales"; t_keys := ["id"; "amount"] |},
             {| t_name := "orders"; t_keys := ["id"; "amount"] |})
            {| st_trace := [GetEngine;
                            Reflect "sales" (Engine "postgresql://pagila");
                            Reflect "orders" (Engine "postgresql://pagila")];
               st_heap := [] |} _ _ _) text (OtherError "TypeError") _ _));
    try (by vm_compute).
  constructor; [|constructor]. exists Float. by vm_compute.
Defined.

Lemma caller_task_id_never_reaches_parent_witness :
  init init_world (named "orders") (named "sales") ["id"] []
       (<["task_id" := PyStr "nightly_append"]> ∅) []
  = (Raise (OtherError "TypeError"), [] ++ [GetUniqueTaskId "append_table"]).
Proof.
  refine (proj1 (caller_task_id_never_reaches_parent init_world
            (named "orders") (named "sales") ["id"] []
            (<["task_id" := PyStr "nightly_append"]> ∅) []
            "append_table_1" _) "task_id" _ _).
  - by vm_compute.
  - unfold written_keywords. set_solver.
  - rewrite lookup_insert_eq. by eexists.
Defined.

End SqlAppendMoreFacts.

(** ** The export operator: routine, options and line-delimited text *)

Module SaveFileLayoutFacts.
Import SaveFile PyFacts TraceFacts SaveFileFacts SaveFileMore
       SaveFileMoreFacts SaveFileLayout.

Lemma string_app_nil_r (s : string) : s +:+ EmptyString = s.
Proof.
  induction s as [|c s IH]; [done|].
  change (String c (s +:+ EmptyString) = String c s). by rewrite IH.
Qed.

Lemma has_char_concat c sep (l : list string) :
  has_char c sep = false ->
  Forall (fun x => has_char c x = false) l ->
  has_char c (String.concat sep l) = false.
Proof.
  intros Hsep Hl. induction Hl as [|x l Hx Hl IH]; [done|].
  destruct l as [|y l]; [done|].
  change (has_char c (x +:+ sep +:+ String.concat sep (y :: l)) = false).
  by rewrite !has_char_app, Hx, Hsep, IH.
Qed.

Lemma json_record_single_line (cols row : list string) :
  forallb no_line_feed cols = true ->
  forallb no_line_feed row = true ->
  has_char newline (json_record cols row) = false.
Proof.
  intros Hcols Hrow. unfold json_record.
  assert (Hpairs : Forall (fun x => has_char newline x = false)
                     (zip_with (fun c v => quote +:+ c +:+ quote +:+ ":" +:+ v)
                               cols row)).
  { revert row Hrow. induction cols as [|c cols IH]; intros [|v row] Hrow;
      simpl; try by constructor.
    simpl in Hcols, Hrow.
    apply andb_true_iff in Hcols as [Hc Hcols].
    apply andb_true_iff in Hrow as [Hv Hrow].
    unfold no_line_feed in Hc, Hv.
    apply negb_true_iff in Hc. apply negb_true_iff in Hv.
    constructor; [|by apply IH].
    by rewrite !has_char_app, Hc, Hv. }
  assert (Hsep : has_char newline "," = false) by done.
  by rewrite !has_char_app, (has_char_concat _ _ _ Hsep Hpairs).
Qed.

(** A piece without a line feed, followed by a line feed, is one line. *)
Lemma splitlines_from_line cur (s rest : string) :
  has_char newline s = false ->
  splitlines_from cur (s +:+ String newline rest)
  = (cur +:+ s) :: splitlines_from EmptyString rest.
Proof.
  revert cur. induction s as [|c s IH]; intros cur Hs.
  - rewrite string_app_nil_r.
    change (splitlines_from cur (String newline rest)
            = cur :: splitlines_from EmptyString rest).
    cbn [splitlines_from]. by rewrite Ascii.eqb_refl.
  - cbn [has_char] in Hs. apply orb_false_iff in Hs as [Hc Hs].
    change (splitlines_from cur (String c (s +:+ String newline rest))
            = (cur +:+ String c s) :: splitlines_from EmptyString rest).
    cbn [splitlines_from]. rewrite Hc, (IH _ Hs). f_equal.
    by rewrite string_app_assoc.
Qed.

(** A last piece without a line feed is one line, unless it is empty. *)
Lemma splitlines_from_last cur (s : string) :
  has_char newline s = false ->
  splitlines_from cur s
  = if String.eqb (cur +:+ s) EmptyString then [] else [cur +:+ s].
Proof.
  revert cur. induction s as [|c s IH]; intros cur Hs.
  - by rewrite string_app_nil_r.
  - cbn [has_char] in Hs. apply orb_false_iff in Hs as [Hc Hs].
    cbn [splitlines_from]. rewrite Hc, (IH _ Hs).
    by rewrite string_app_assoc.
Qed.

(** Records joined by line feeds, with or without a last line feed,
    split into exactly the records. *)
Lemma splitlines_of_joined (final : bool) (r : string)
    (records : list string) :
  Forall (fun x => has_char newline x = false /\ x ≠ EmptyString)
         (r :: records) ->
  splitlines (String.concat line_feed (r :: records)
              +:+ (if final then line_feed else EmptyString))
  = r :: records.
Proof.
  unfold splitlines. revert r.
  induction records as [|r' records IH]; intros r Hall.
  - apply Forall_cons in Hall as [[Hr Hne] _].
    change (String.concat line_feed [r]) with r. destruct final.
    + unfold line_feed. by rewrite splitlines_from_line.
    + rewrite string_app_nil_r, splitlines_from_last by done.
      change (EmptyString +:+ r) with r.
      destruct (String.eqb_spec r EmptyString); done.
  - apply Forall_cons in Hall as [[Hr Hne] Hall].
    change (String.concat line_feed (r :: r' :: records))
      with (r +:+ line_feed +:+ String.concat line_feed (r' :: records)).
    rewrite !string_app_assoc. unfold line_feed at 1.
    change (String newline EmptyString +:+ ?x) with (String newline x).
    rewrite splitlines_from_line by done.
    change (EmptyString +:+ r) with r. f_equal. by apply IH.
Qed.

Lemma json_record_not_empty cols row : json_record cols row ≠ EmptyString.
Proof. done. Qed.

Lemma destination_text_of_write (final : bool) (t : trace) o s kw df c :
  is_serialise o = false -> is_serialise c = false ->
  destination_text final (t ++ [o; Serialise to_json s kw df; c])
  = rendered final (Serialise to_json s kw df).
Proof.
  intros Ho Hc. unfold destination_text.
  rewrite List.filter_app. simpl. rewrite Ho, Hc.
  by rewrite last_snoc.
Qed.

(** C7. The serialiser and its keyword arguments are fixed by the
    format selector: csv is to_csv with index=False, json is to_json with
    orient=records, ndjson is to_json with orient=records and lines=True,
    parquet is to_parquet with no options.  A write whose destination
    opens hands the dataframe to that routine with those options, on the
    stream opened in mode wb.  A successful ndjson export of a dataframe
    of three rows hands the destination, in one call, the line-delimited
    text of that dataframe: it splits into exactly three lines, each the
    object of one row keyed by the column names alone. *)
Theorem format_fixes_routine_and_options w self df path conn t tp t1 :
  (serialiser !! "csv" = Some to_csv
   /\ serialiser_params !! "csv" = Some csv_options)
  /\ (serialiser !! "json" = Some to_json
      /\ serialiser_params !! "json" = Some json_options)
  /\ (serialiser !! "ndjson" = Some to_json
      /\ serialiser_params !! "ndjson" = Some ndjson_options)
  /\ (serialiser !! "parquet" = Some to_parquet
      /\ serialiser_params !! "parquet" = None)
  /\ (forall r,
        transport_params w path t = (Ok tp, t1) ->
        smart_open w t1 path mode_wb tp = Ok tt ->
        serialiser !! output_file_format self = Some r ->
        let s := {| s_path := path; s_mode := mode_wb |} in
        let kw := default ∅ (serialiser_params !! output_file_format self) in
        (agnostic_write_file w self df path conn t).2
        = t1 ++ [Open path mode_wb tp; Serialise r s kw df; Close s])
  /\ (forall (final_line_feed : bool) r1 r2 r3,
        output_file_format self = "ndjson" ->
        df_rows df = [r1; r2; r3] ->
        single_line df = true ->
        transport_params w path t = (Ok tp, t1) ->
        smart_open w t1 path mode_wb tp = Ok tt ->
        let s := {| s_path := path; s_mode := mode_wb |} in
        let t2 := t1 ++ [Open path mode_wb tp] in
        let t3 := t2 ++ [Serialise to_json s ndjson_options df] in
        serialise w t2 to_json s ndjson_options df = Ok tt ->
        stream_exit w t3 s = Ok tt ->
        agnostic_write_file w self df path conn t = (Ok tt, t3 ++ [Close s])
        /\ exists text,
             destination_text final_line_feed
               (agnostic_write_file w self df path conn t).2 = Some text
             /\ text = to_json_lines final_line_feed df
             /\ splitlines text
                = [json_record (df_columns df) r1;
                   json_record (df_columns df) r2;
                   json_record (df_columns df) r3]).
Proof.
  do 4 (split; [done|]). split.
  - intros r Htp Ho Hr.
    rewrite (agnostic_write_file_after_open _ _ _ _ _ _ _ _ Htp Ho), Hr.
    simpl. by rewrite <- !app_assoc.
  - intros final r1 r2 r3 Hfmt Hrows Hsingle Htp Ho s t2 t3 Hs Hx.
    assert (Hrun : agnostic_write_file w self df path conn t
                   = (Ok tt, t3 ++ [Close s])).
    { rewrite (agnostic_write_file_after_open _ _ _ _ _ _ _ _ Htp Ho), Hfmt.
      replace (serialiser !! "ndjson") with (Some to_json) by done.
      replace (serialiser_params !! "ndjson") with (Some ndjson_options)
        by done.
      simpl. fold s t2. rewrite Hs. fold t3. by rewrite Hx. }
    split; [done|]. rewrite Hrun. simpl.
    exists (to_json_lines final df). split; [|split; [done|]].
    + unfold t3, t2. rewrite <- !app_assoc. simpl.
      by rewrite destination_text_of_write.
    + unfold single_line in Hsingle. rewrite Hrows in Hsingle.
      apply andb_true_iff in Hsingle as [Hcols Hcells]. simpl in Hcells.
      apply andb_true_iff in Hcells as [H1 Hcells].
      apply andb_true_iff in Hcells as [H2 Hcells].
      apply andb_true_iff in Hcells as [H3 _].
      unfold to_json_lines. rewrite Hrows. simpl map.
      apply splitlines_of_joined.
      repeat constructor;
        auto using json_record_single_line, json_record_not_empty.
Qed.

(** *** The theorem at a concrete export *)

Import SaveFileExamples.

Lemma format_fixes_routine_and_options_witness :
  (agnostic_write_file (world "postgres" (Ok tt))
     (export "s3://bucket/out.csv" "csv" None) orders_df
     "s3://bucket/out.csv" None loaded).2
  = (loaded ++ [CallProvider s3fs_creds])
    ++ [Open "s3://bucket/out.csv" mode_wb (Some (Transport "client"));
        Serialise to_csv
          {| s_path := "s3://bucket/out.csv"; s_mode := mode_wb |}
          csv_options orders_df;
        Close {| s_path := "s3://bucket/out.csv"; s_mode := mode_wb |}]
  /\ agnostic_write_file (world "postgres" (Ok tt))
       (export "out.ndjson" "ndjson" None) orders_df "out.ndjson" None
       loaded
     = (Ok tt,
        ((loaded ++ [Open "out.ndjson" mode_wb None])
         ++ [Serialise to_json
               {| s_path := "out.ndjson"; s_mode := mode_wb |}
               ndjson_options orders_df])
        ++ [Close {| s_path := "out.ndjson"; s_mode := mode_wb |}])
  /\ (exists text,
        destination_text true
          (agnostic_write_file (world "postgres" (Ok tt))
             (export "out.ndjson" "ndjson" None) orders_df "out.ndjson" None
             loaded).2 = Some text
        /\ text = to_json_lines true orders_df
        /\ splitlines text
           = [json_record ["id"; "amount"] ["1"; "9.5"];
              json_record ["id"; "amount"] ["2"; "12.0"];
              json_record ["id"; "amount"] ["3"; "7.25"]]).
Proof.
  split.
  - refine (proj1 (proj2 (proj2 (proj2 (proj2
              (format_fixes_routine_and_options (world "postgres" (Ok tt))
                 (export "s3://bucket/out.csv" "csv" None) orders_df
                 "s3://bucket/out.csv" None loaded
                 (Some (Transport "client"))
                 (loaded ++ [CallProvider s3fs_creds]))))))
              to_csv _ _ _); by vm_compute.
  - refine (proj2 (proj2 (proj2 (proj2 (proj2
              (format_fixes_routine_and_options (world "postgres" (Ok tt))
                 (export "out.ndjson" "ndjson" None) orders_df
                 "out.ndjson" None loaded None loaded)))))
              true ["1"; "9.5"] ["2"; "12.0"] ["3"; "7.25"] _ _ _ _ _ _ _);
      by vm_compute.
Defined.

End SaveFileLayoutFacts.
